(** * hound-todo: the idempotent command pipeline

    A shallow embedding of the Go services that carry a user command from
    the SMS webhook (ingress), through the durable queue (command consumer
    and dispatcher), into the idempotent todo store (todo-domain), together
    with the properties the specification states about them.

    Go strings are byte strings and are modelled by [string]; integers are
    [Z]; the PostgreSQL tables are finite maps keyed by their primary key. *)

From Stdlib Require Import ZArith List String Ascii Bool Lia.
From stdpp Require Import gmap strings list fin_maps sorting.

Local Open Scope Z_scope.

(* ===================================================================== *)
(** * Part I: the programs *)
(* ===================================================================== *)

(** ** crypto/sha256 and encoding/hex, as used by [GenerateKey] *)

Module SHA256.

(** 32-bit words are [Z] reduced modulo [2^32]. *)
Definition wrap32 (x : Z) : Z := x mod 2 ^ 32.

Definition add32 (x y : Z) : Z := wrap32 (x + y).

Definition rotr (n x : Z) : Z :=
  wrap32 (Z.lor (Z.shiftr x n) (Z.shiftl x (32 - n))).

Definition not32 (x : Z) : Z := Z.lxor x (2 ^ 32 - 1).

(** The round constants, in eight rows of eight. *)
Definition K_row0 : list Z :=
  [ 0x428a2f98; 0x71374491; 0xb5c0fbcf; 0xe9b5dba5;
    0x3956c25b; 0x59f111f1; 0x923f82a4; 0xab1c5ed5 ].

Definition K_row1 : list Z :=
  [ 0xd807aa98; 0x12835b01; 0x243185be; 0x550c7dc3;
    0x72be5d74; 0x80deb1fe; 0x9bdc06a7; 0xc19bf174 ].

Definition K_row2 : list Z :=
  [ 0xe49b69c1; 0xefbe4786; 0x0fc19dc6; 0x240ca1cc;
    0x2de92c6f; 0x4a7484aa; 0x5cb0a9dc; 0x76f988da ].

Definition K_row3 : list Z :=
  [ 0x983e5152; 0xa831c66d; 0xb00327c8; 0xbf597fc7;
    0xc6e00bf3; 0xd5a79147; 0x06ca6351; 0x14292967 ].

Definition K_row4 : list Z :=
  [ 0x27b70a85; 0x2e1b2138; 0x4d2c6dfc; 0x53380d13;
    0x650a7354; 0x766a0abb; 0x81c2c92e; 0x92722c85 ].

Definition K_row5 : list Z :=
  [ 0xa2bfe8a1; 0xa81a664b; 0xc24b8b70; 0xc76c51a3;
    0xd192e819; 0xd6990624; 0xf40e3585; 0x106aa070 ].

Definition K_row6 : list Z :=
  [ 0x19a4c116; 0x1e376c08; 0x2748774c; 0x34b0bcb5;
    0x391c0cb3; 0x4ed8aa4a; 0x5b9cca4f; 0x682e6ff3 ].

Definition K_row7 : list Z :=
  [ 0x748f82ee; 0x78a5636f; 0x84c87814; 0x8cc70208;
    0x90befffa; 0xa4506ceb; 0xbef9a3f7; 0xc67178f2 ].

Definition K : list Z :=
  K_row0 ++ K_row1 ++ K_row2 ++ K_row3 ++ K_row4 ++ K_row5 ++ K_row6 ++ K_row7.

(** The chaining value [h0 .. h7]. *)
Record digest_state := mkState {
  h0 : Z; h1 : Z; h2 : Z; h3 : Z; h4 : Z; h5 : Z; h6 : Z; h7 : Z }.

Definition init : digest_state :=
  mkState 0x6a09e667 0xbb67ae85 0x3c6ef372 0xa54ff53a
          0x510e527f 0x9b05688c 0x1f83d9ab 0x5be0cd19.

(** Padding: a [0x80] byte, zeros up to 56 modulo 64, then the bit length
    as a big-endian 64-bit integer. *)
Definition be_bytes (width : nat) (x : Z) : list Z :=
  map (fun i => Z.shiftr x (8 * Z.of_nat (width - 1 - i)) mod 256) (seq 0 width).

Definition pad (msg : list Z) : list Z :=
  let len := Z.of_nat (List.length msg) in
  let zeros := Z.to_nat ((55 - len) mod 64) in
  msg ++ [0x80] ++ repeat 0 zeros ++ be_bytes 8 (8 * len).

Definition be_word (b : list Z) : Z :=
  fold_left (fun acc x => acc * 256 + x) b 0.

(** Split a block of 64 bytes into sixteen big-endian words. *)
Fixpoint words_of (n : nat) (b : list Z) : list Z :=
  match n with
  | O => []
  | S n' => be_word (firstn 4 b) :: words_of n' (skipn 4 b)
  end.

Definition sigma0 (x : Z) : Z :=
  Z.lxor (Z.lxor (rotr 7 x) (rotr 18 x)) (Z.shiftr x 3).

Definition sigma1 (x : Z) : Z :=
  Z.lxor (Z.lxor (rotr 17 x) (rotr 19 x)) (Z.shiftr x 10).

(** [w[i] = sigma1 w[i-2] + w[i-7] + sigma0 w[i-15] + w[i-16]] for
    [i = 16 .. 63]. *)
Fixpoint schedule (n : nat) (w : list Z) : list Z :=
  match n with
  | O => w
  | S n' =>
      let i := List.length w in
      let at_ k := nth (i - k) w 0 in
      schedule n'
        (w ++ [add32 (add32 (add32 (sigma1 (at_ 2%nat)) (at_ 7%nat))
                            (sigma0 (at_ 15%nat))) (at_ 16%nat)])
  end.

Definition round (s : digest_state) (kw : Z * Z) : digest_state :=
  let '(mkState a b c d e f g h) := s in
  let S1 := Z.lxor (Z.lxor (rotr 6 e) (rotr 11 e)) (rotr 25 e) in
  let ch := Z.lxor (Z.land e f) (Z.land (not32 e) g) in
  let t1 := add32 (add32 (add32 (add32 h S1) ch) (fst kw)) (snd kw) in
  let S0 := Z.lxor (Z.lxor (rotr 2 a) (rotr 13 a)) (rotr 22 a) in
  let maj := Z.lxor (Z.lxor (Z.land a b) (Z.land a c)) (Z.land b c) in
  let t2 := add32 S0 maj in
  mkState (add32 t1 t2) a b c (add32 d t1) e f g.

Definition block (s : digest_state) (b : list Z) : digest_state :=
  let w := schedule 48 (words_of 16 b) in
  let r := fold_left round (combine K w) s in
  mkState (add32 (h0 s) (h0 r)) (add32 (h1 s) (h1 r))
          (add32 (h2 s) (h2 r)) (add32 (h3 s) (h3 r))
          (add32 (h4 s) (h4 r)) (add32 (h5 s) (h5 r))
          (add32 (h6 s) (h6 r)) (add32 (h7 s) (h7 r)).

(** Consume the padded message 64 bytes at a time; [n] is the number of
    blocks. *)
Fixpoint blocks (n : nat) (s : digest_state) (p : list Z) : digest_state :=
  match n with
  | O => s
  | S n' => blocks n' (block s (firstn 64 p)) (skipn 64 p)
  end.

Definition state_bytes (s : digest_state) : list Z :=
  be_bytes 4 (h0 s) ++ be_bytes 4 (h1 s) ++ be_bytes 4 (h2 s) ++
  be_bytes 4 (h3 s) ++ be_bytes 4 (h4 s) ++ be_bytes 4 (h5 s) ++
  be_bytes 4 (h6 s) ++ be_bytes 4 (h7 s).

(** [sha256.Sum256]: the 32-byte digest of a byte string. *)
Definition Sum256 (msg : list Z) : list Z :=
  let p := pad msg in
  state_bytes (blocks (List.length p / 64)%nat init p).

End SHA256.

(** The bytes of a Go string. *)
Definition bytes_of_string (s : string) : list Z :=
  map (fun c => Z.of_N (N_of_ascii c)) (list_ascii_of_string s).

Module Hex.

Definition hextable : string := "0123456789abcdef".

Definition digit (n : Z) : ascii :=
  match String.get (Z.to_nat n) hextable with
  | Some c => c
  | None => "0"%char
  end.

(** [hex.EncodeToString]: two digits per byte, high nibble first. *)
Fixpoint EncodeToString (src : list Z) : string :=
  match src with
  | [] => EmptyString
  | v :: rest =>
      String (digit (Z.shiftr v 4)) (String (digit (Z.land v 0x0f))
        (EncodeToString rest))
  end.

End Hex.

Module Idempotency.

(** shared/idempotency/key.go: [GenerateKey]. *)
Definition GenerateKey (source : string) : string :=
  let hash := SHA256.Sum256 (bytes_of_string source) in
  String.append "idem_" (Hex.EncodeToString (firstn 16 hash)).

End Idempotency.


(** ** Results and the persistent store *)

Inductive result (E A : Type) : Type :=
| Ok (a : A)
| Err (e : E).
Arguments Ok {E A} a.
Arguments Err {E A} e.

(** A JSONB document, the type of the [response] column. *)
#[local] Unset Elimination Schemes.
Inductive json : Type :=
| JNull
| JBool (b : bool)
| JNum (n : Z)
| JStr (s : string)
| JArr (items : list json)
| JObj (fields : list (string * json)).
#[local] Set Elimination Schemes.

Module Store.

(** [store.Todo]: a row of the [todos] table.  Timestamps are instants on
    an integer time line; nullable columns are options. *)
Record Todo := mkTodo {
  ID : Z;
  UserID : string;
  Title : string;
  Description : string;
  Status : string;
  CreatedAt : Z;
  UpdatedAt : Z;
  CompletedAt : option Z;
  DeletedAt : option Z }.

(** A row of the [idempotency_keys] table; the key is the map key. *)
Record IdempotencyRecord := mkRecord {
  response : json;
  created_at : Z }.

(** The sentinel errors of the package, and the errors that come from the
    driver ([database/sql]) or from [encoding/json]. *)
Inductive error :=
| ErrNotFound
| ErrAlreadyExists
| ErrNotOwner
| ErrDriver
| ErrJSON.

(** The SQL statements the package sends. *)
Inductive Stmt :=
| InsertTodo (userID title description : string)
| SelectTodo (id : Z)
| SelectTodos (userID status : string)
| UpdateComplete (id : Z) (userID : string)
| UpdateDelete (id : Z) (userID : string)
| UpdateEdit (id : Z) (userID title description : string)
| SelectIdempotencyKey (key : string)
| InsertIdempotencyKey (key : string).

(** The world a [Store] talks to: the two tables of [todo_db], the
    [BIGSERIAL] sequence behind [todos.id], the wall clock read by
    [time.Now], the schedule of infrastructure failures (one flag per
    statement sent, [true] = the driver returns an error; an exhausted
    schedule means no more failures), and the journal of statements sent. *)
Record World := mkWorld {
  todos : gmap Z Todo;
  idempotency_keys : gmap string IdempotencyRecord;
  todos_id_seq : Z;
  clock : Z;
  faults : list bool;
  journal : list Stmt }.

Definition M (A : Type) : Type := World -> result error A * World.

Definition set_todos (m : gmap Z Todo) (w : World) : World :=
  mkWorld m (idempotency_keys w) (todos_id_seq w) (clock w) (faults w) (journal w).

Definition set_idempotency_keys (m : gmap string IdempotencyRecord) (w : World) : World :=
  mkWorld (todos w) m (todos_id_seq w) (clock w) (faults w) (journal w).

Definition set_todos_id_seq (n : Z) (w : World) : World :=
  mkWorld (todos w) (idempotency_keys w) n (clock w) (faults w) (journal w).

(** [time.Now()]: read the clock; time moves on. *)
Definition time_Now (w : World) : Z * World :=
  (clock w,
   mkWorld (todos w) (idempotency_keys w) (todos_id_seq w) (clock w + 1)
           (faults w) (journal w)).

(** Send one statement: it is journalled, and the next flag of the failure
    schedule says whether the driver reports an error for it. *)
Definition send (s : Stmt) (w : World) : bool * World :=
  match faults w with
  | [] =>
      (false,
       mkWorld (todos w) (idempotency_keys w) (todos_id_seq w) (clock w)
               [] (journal w ++ [s]))
  | f :: fs =>
      (f,
       mkWorld (todos w) (idempotency_keys w) (todos_id_seq w) (clock w)
               fs (journal w ++ [s]))
  end.

(** The database answers the next [n] statements. *)
Definition answers (n : nat) (w : World) : bool :=
  forallb negb (firstn n (faults w)).

(** [UPDATE todos SET ... WHERE id = $id AND <guard>]: the number of rows
    affected, which is 0 or 1 because [id] is the primary key. *)
Definition update_where (id : Z) (guard : Todo -> bool) (set : Todo -> Todo)
    (w : World) : Z * World :=
  match todos w !! id with
  | Some t =>
      if guard t then (1, set_todos (<[id := set t]> (todos w)) w) else (0, w)
  | None => (0, w)
  end.

Definition with_ID (id : Z) (t : Todo) : Todo :=
  mkTodo id (UserID t) (Title t) (Description t) (Status t) (CreatedAt t)
         (UpdatedAt t) (CompletedAt t) (DeletedAt t).

(** [CreateTodo] inserts a new todo and returns it with the generated id.
    An id that is already taken violates the primary key. *)
Definition CreateTodo (userID title description : string) : M Todo := fun w =>
  let '(createdAt, w) := time_Now w in
  let '(updatedAt, w) := time_Now w in
  let todo := mkTodo 0 userID title description "active" createdAt updatedAt
                     None None in
  let '(failed, w) := send (InsertTodo userID title description) w in
  if failed then (Err ErrDriver, w) else
  let id := todos_id_seq w in
  let w := set_todos_id_seq (id + 1) w in
  match todos w !! id with
  | Some _ => (Err ErrDriver, w)
  | None =>
      (Ok (with_ID id todo), set_todos (<[id := with_ID id todo]> (todos w)) w)
  end.

(** [GetTodo] retrieves a todo by id; [sql.ErrNoRows] becomes
    [ErrNotFound]. *)
Definition GetTodo (id : Z) : M Todo := fun w =>
  let '(failed, w) := send (SelectTodo id) w in
  if failed then (Err ErrDriver, w) else
  match todos w !! id with
  | None => (Err ErrNotFound, w)
  | Some t => (Ok t, w)
  end.

(** The [WHERE] clause of [ListTodos]. *)
Definition list_filter (userID status : string) (t : Todo) : bool :=
  if decide (status <> ""%string)
  then bool_decide (UserID t = userID) && bool_decide (Status t = status)
  else bool_decide (UserID t = userID) &&
       negb (bool_decide (Status t = "deleted"%string)).

(** [ORDER BY created_at DESC]. *)
Definition created_desc (a b : Todo) : Prop := CreatedAt b <= CreatedAt a.

#[global] Instance created_desc_dec a b : Decision (created_desc a b).
Proof. unfold created_desc. apply _. Defined.

(** [ListTodos] retrieves all todos for a user, optionally filtered by
    status. *)
Definition ListTodos (userID status : string) : M (list Todo) := fun w =>
  let '(failed, w) := send (SelectTodos userID status) w in
  if failed then (Err ErrDriver, w) else
  let rows := map snd (map_to_list (todos w)) in
  (Ok (merge_sort created_desc
         (List.filter (list_filter userID status) rows)), w).

Definition set_completed (completedAt now : Z) (t : Todo) : Todo :=
  mkTodo (ID t) (UserID t) (Title t) (Description t) "completed"
         (CreatedAt t) now (Some completedAt) (DeletedAt t).

Definition set_deleted (now : Z) (t : Todo) : Todo :=
  mkTodo (ID t) (UserID t) (Title t) (Description t) "deleted"
         (CreatedAt t) now (CompletedAt t) (Some now).

Definition set_edited (title description : string) (now : Z) (t : Todo) : Todo :=
  mkTodo (ID t) (UserID t) title description (Status t)
         (CreatedAt t) now (CompletedAt t) (DeletedAt t).

(** [CompleteTodo] marks a todo as completed. *)
Definition CompleteTodo (id : Z) (userID : string) (completedAt : Z) : M Todo :=
  fun w =>
  let '(now, w) := time_Now w in
  let '(failed, w) := send (UpdateComplete id userID) w in
  if failed then (Err ErrDriver, w) else
  let '(rowsAffected, w) :=
    update_where id
      (fun t => bool_decide (UserID t = userID) &&
                bool_decide (Status t = "active"%string))
      (set_completed completedAt now) w in
  if rowsAffected =? 0 then
    match GetTodo id w with
    | (Err ErrNotFound, w) => (Err ErrNotFound, w)
    | (Err e, w) => (Err e, w)
    | (Ok existing, w) =>
        if decide (UserID existing <> userID) then (Err ErrNotOwner, w)
        else (Ok existing, w)
    end
  else GetTodo id w.

(** [DeleteTodo] soft-deletes a todo. *)
Definition DeleteTodo (id : Z) (userID : string) : M Todo := fun w =>
  let '(now, w) := time_Now w in
  let '(failed, w) := send (UpdateDelete id userID) w in
  if failed then (Err ErrDriver, w) else
  let '(rowsAffected, w) :=
    update_where id
      (fun t => bool_decide (UserID t = userID) &&
                negb (bool_decide (Status t = "deleted"%string)))
      (set_deleted now) w in
  if rowsAffected =? 0 then
    match GetTodo id w with
    | (Err ErrNotFound, w) => (Err ErrNotFound, w)
    | (Err e, w) => (Err e, w)
    | (Ok existing, w) =>
        if decide (UserID existing <> userID) then (Err ErrNotOwner, w)
        else (Ok existing, w)
    end
  else GetTodo id w.

(** [EditTodo] updates a todo's title and description. *)
Definition EditTodo (id : Z) (userID title description : string) : M Todo :=
  fun w =>
  let '(now, w) := time_Now w in
  let '(failed, w) := send (UpdateEdit id userID title description) w in
  if failed then (Err ErrDriver, w) else
  let '(rowsAffected, w) :=
    update_where id
      (fun t => bool_decide (UserID t = userID) &&
                negb (bool_decide (Status t = "deleted"%string)))
      (set_edited title description now) w in
  if rowsAffected =? 0 then
    match GetTodo id w with
    | (Err ErrNotFound, w) => (Err ErrNotFound, w)
    | (Err e, w) => (Err e, w)
    | (Ok existing, w) =>
        if decide (UserID existing <> userID) then (Err ErrNotOwner, w)
        else (Err ErrNotFound, w)
    end
  else GetTodo id w.

(** [CheckIdempotencyKey] returns the cached response if the key is on
    record, [None] (Go: [nil, nil]) if it is not. *)
Definition CheckIdempotencyKey (key : string) : M (option json) := fun w =>
  let '(failed, w) := send (SelectIdempotencyKey key) w in
  if failed then (Err ErrDriver, w) else
  match idempotency_keys w !! key with
  | None => (Ok None, w)
  | Some r => (Ok (Some (response r)), w)
  end.

(** [StoreIdempotencyKey] records the response under the key:
    [INSERT ... ON CONFLICT (key) DO NOTHING].  [marshalled] is the outcome
    of [json.Marshal response]. *)
Definition StoreIdempotencyKey (key : string) (marshalled : option json) : M unit :=
  fun w =>
  match marshalled with
  | None => (Err ErrJSON, w)
  | Some jsonResponse =>
      let '(now, w) := time_Now w in
      let '(failed, w) := send (InsertIdempotencyKey key) w in
      if failed then (Err ErrDriver, w) else
      match idempotency_keys w !! key with
      | Some _ => (Ok tt, w)
      | None =>
          (Ok tt,
           set_idempotency_keys
             (<[key := mkRecord jsonResponse now]> (idempotency_keys w)) w)
      end
  end.

End Store.

(** ** The gRPC messages of [api/todo/v1] *)

Module Pb.

Inductive TodoStatus :=
| TODO_STATUS_UNSPECIFIED
| TODO_STATUS_ACTIVE
| TODO_STATUS_COMPLETED
| TODO_STATUS_DELETED.

#[global] Instance TodoStatus_eq_dec : EqDecision TodoStatus.
Proof. solve_decision. Defined.

Record Todo := mkTodo {
  Id : Z;
  UserId : string;
  Title : string;
  Description : string;
  Status : TodoStatus;
  CreatedAt : Z;
  CompletedAt : option Z }.

(** [CreateTodoResponse], [CompleteTodoResponse], [DeleteTodoResponse] and
    [EditTodoResponse] are four messages of one shape: a single [Todo]
    field, a pointer that may be nil. *)
Record TodoResponse := mkResponse { Todo_ : option Todo }.

Record ListTodosResponse := mkListResponse { Todos : list Todo }.

(** [encoding/json] on the generated response messages.  The generated
    code is not part of the sources, so the codec is a parameter of the
    server. *)
Class JSONCodec := {
  Marshal : TodoResponse -> option json;
  Unmarshal : json -> option TodoResponse }.


(** A codec with these laws: each message becomes the JSON object of its
    fields, in declaration order, and is read back from such an object. *)
Definition status_number (s : TodoStatus) : Z :=
  match s with
  | TODO_STATUS_UNSPECIFIED => 0
  | TODO_STATUS_ACTIVE => 1
  | TODO_STATUS_COMPLETED => 2
  | TODO_STATUS_DELETED => 3
  end.

Definition status_of_number (n : Z) : option TodoStatus :=
  if n =? 0 then Some TODO_STATUS_UNSPECIFIED
  else if n =? 1 then Some TODO_STATUS_ACTIVE
  else if n =? 2 then Some TODO_STATUS_COMPLETED
  else if n =? 3 then Some TODO_STATUS_DELETED
  else None.

Definition todo_to_json (t : Todo) : json :=
  JObj [ ("id"%string, JNum (Id t));
         ("user_id"%string, JStr (UserId t));
         ("title"%string, JStr (Title t));
         ("description"%string, JStr (Description t));
         ("status"%string, JNum (status_number (Status t)));
         ("created_at"%string, JNum (CreatedAt t));
         ("completed_at"%string,
          match CompletedAt t with Some n => JNum n | None => JNull end) ].

Definition todo_of_json (doc : json) : option Todo :=
  match doc with
  | JObj [ (_, JNum id); (_, JStr user); (_, JStr title); (_, JStr description);
           (_, JNum st); (_, JNum created); (_, completed) ] =>
      match status_of_number st, completed with
      | Some st, JNum n => Some (mkTodo id user title description st created (Some n))
      | Some st, JNull => Some (mkTodo id user title description st created None)
      | _, _ => None
      end
  | _ => None
  end.

#[global] Instance object_codec : JSONCodec := {
  Marshal r :=
    Some (JObj [ ("todo"%string,
                  match Todo_ r with
                  | Some t => todo_to_json t
                  | None => JNull
                  end) ]);
  Unmarshal doc :=
    match doc with
    | JObj [ (_, JNull) ] => Some (mkResponse None)
    | JObj [ (_, t) ] =>
        match todo_of_json t with
        | Some t => Some (mkResponse (Some t))
        | None => None
        end
    | _ => None
    end }.

End Pb.

Module CreateTodoRequest.
Record t := mk {
  UserId : string;
  Title : string;
  Description : string;
  IdempotencyKey : string }.
End CreateTodoRequest.

Module CompleteTodoRequest.
Record t := mk {
  TodoId : Z;
  UserId : string;
  IdempotencyKey : string;
  CompletedAt : option Z }.
End CompleteTodoRequest.

Module DeleteTodoRequest.
Record t := mk {
  TodoId : Z;
  UserId : string;
  IdempotencyKey : string }.
End DeleteTodoRequest.

Module EditTodoRequest.
Record t := mk {
  TodoId : Z;
  UserId : string;
  Title : string;
  Description : string;
  IdempotencyKey : string }.
End EditTodoRequest.

Module ListTodosRequest.
Record t := mk {
  UserId : string;
  Status : Pb.TodoStatus;
  CompletedAfter : option Z;
  CompletedBefore : option Z }.
End ListTodosRequest.

(** ** services/todo-domain/internal/server *)

Module Server.

(** [google.golang.org/grpc/codes], the ones the server uses. *)
Inductive Code := InvalidArgument | NotFound | PermissionDenied | Internal.

(** [status.Error code message]. *)
Record Status := mkStatus { code : Code; message : string }.

Definition M (A : Type) : Type := Store.World -> result Status A * Store.World.

(** [storeToProto] converts a [store.Todo] to a protobuf [Todo]. *)
Definition storeToProto (t : Store.Todo) : Pb.Todo :=
  Pb.mkTodo (Store.ID t) (Store.UserID t) (Store.Title t) (Store.Description t)
    (if decide (Store.Status t = "active"%string) then Pb.TODO_STATUS_ACTIVE
     else if decide (Store.Status t = "completed"%string) then Pb.TODO_STATUS_COMPLETED
     else if decide (Store.Status t = "deleted"%string) then Pb.TODO_STATUS_DELETED
     else Pb.TODO_STATUS_UNSPECIFIED)
    (Store.CreatedAt t)
    (Store.CompletedAt t).

Section Handlers.
Context {codec : Pb.JSONCodec}.

(** The outcome of the block headed [// Check idempotency key], which the
    four mutating handlers repeat word for word: the lookup failed, a
    cached response was found and decoded, or the handler goes on (no key,
    no record, or a record that does not decode). *)
Inductive Lookup :=
| LookupFailed
| Cached (resp : Pb.TodoResponse)
| Proceed.

Definition checkIdempotency (key : string) (w : Store.World) : Lookup * Store.World :=
  if decide (key <> ""%string) then
    match Store.CheckIdempotencyKey key w with
    | (Err _, w) => (LookupFailed, w)
    | (Ok (Some cached), w) =>
        match Pb.Unmarshal cached with
        | Some resp => (Cached resp, w)
        | None => (Proceed, w)
        end
    | (Ok None, w) => (Proceed, w)
    end
  else (Proceed, w).

(** The closing block of the four handlers: record the response under the
    key; whatever [StoreIdempotencyKey] returns is at most logged. *)
Definition storeIdempotency (key : string) (resp : Pb.TodoResponse)
    (w : Store.World) : Store.World :=
  if decide (key <> ""%string)
  then snd (Store.StoreIdempotencyKey key (Pb.Marshal resp) w)
  else w.

(** [CreateTodo] creates a new todo item. *)
Definition CreateTodo (req : CreateTodoRequest.t) : M Pb.TodoResponse := fun w =>
  if decide (CreateTodoRequest.UserId req = ""%string)
  then (Err (mkStatus InvalidArgument "user_id is required"), w) else
  if decide (CreateTodoRequest.Title req = ""%string)
  then (Err (mkStatus InvalidArgument "title is required"), w) else
  match checkIdempotency (CreateTodoRequest.IdempotencyKey req) w with
  | (LookupFailed, w) => (Err (mkStatus Internal "internal error"), w)
  | (Cached resp, w) => (Ok resp, w)
  | (Proceed, w) =>
      match Store.CreateTodo (CreateTodoRequest.UserId req)
              (CreateTodoRequest.Title req)
              (CreateTodoRequest.Description req) w with
      | (Err _, w) => (Err (mkStatus Internal "failed to create todo"), w)
      | (Ok todo, w) =>
          let resp := Pb.mkResponse (Some (storeToProto todo)) in
          (Ok resp, storeIdempotency (CreateTodoRequest.IdempotencyKey req) resp w)
      end
  end.

(** [CompleteTodo] marks a todo as completed. *)
Definition CompleteTodo (req : CompleteTodoRequest.t) : M Pb.TodoResponse := fun w =>
  if decide (CompleteTodoRequest.TodoId req = 0)
  then (Err (mkStatus InvalidArgument "todo_id is required"), w) else
  if decide (CompleteTodoRequest.UserId req = ""%string)
  then (Err (mkStatus InvalidArgument "user_id is required"), w) else
  match checkIdempotency (CompleteTodoRequest.IdempotencyKey req) w with
  | (LookupFailed, w) => (Err (mkStatus Internal "internal error"), w)
  | (Cached resp, w) => (Ok resp, w)
  | (Proceed, w) =>
      let '(completedAt, w) :=
        match CompleteTodoRequest.CompletedAt req with
        | Some t => (t, w)
        | None => Store.time_Now w
        end in
      match Store.CompleteTodo (CompleteTodoRequest.TodoId req)
              (CompleteTodoRequest.UserId req) completedAt w with
      | (Err Store.ErrNotFound, w) => (Err (mkStatus NotFound "todo not found"), w)
      | (Err Store.ErrNotOwner, w) =>
          (Err (mkStatus PermissionDenied "you do not own this todo"), w)
      | (Err _, w) => (Err (mkStatus Internal "failed to complete todo"), w)
      | (Ok todo, w) =>
          let resp := Pb.mkResponse (Some (storeToProto todo)) in
          (Ok resp, storeIdempotency (CompleteTodoRequest.IdempotencyKey req) resp w)
      end
  end.

(** [DeleteTodo] soft-deletes a todo. *)
Definition DeleteTodo (req : DeleteTodoRequest.t) : M Pb.TodoResponse := fun w =>
  if decide (DeleteTodoRequest.TodoId req = 0)
  then (Err (mkStatus InvalidArgument "todo_id is required"), w) else
  if decide (DeleteTodoRequest.UserId req = ""%string)
  then (Err (mkStatus InvalidArgument "user_id is required"), w) else
  match checkIdempotency (DeleteTodoRequest.IdempotencyKey req) w with
  | (LookupFailed, w) => (Err (mkStatus Internal "internal error"), w)
  | (Cached resp, w) => (Ok resp, w)
  | (Proceed, w) =>
      match Store.DeleteTodo (DeleteTodoRequest.TodoId req)
              (DeleteTodoRequest.UserId req) w with
      | (Err Store.ErrNotFound, w) => (Err (mkStatus NotFound "todo not found"), w)
      | (Err Store.ErrNotOwner, w) =>
          (Err (mkStatus PermissionDenied "you do not own this todo"), w)
      | (Err _, w) => (Err (mkStatus Internal "failed to delete todo"), w)
      | (Ok todo, w) =>
          let resp := Pb.mkResponse (Some (storeToProto todo)) in
          (Ok resp, storeIdempotency (DeleteTodoRequest.IdempotencyKey req) resp w)
      end
  end.

(** [EditTodo] updates a todo's title or description. *)
Definition EditTodo (req : EditTodoRequest.t) : M Pb.TodoResponse := fun w =>
  if decide (EditTodoRequest.TodoId req = 0)
  then (Err (mkStatus InvalidArgument "todo_id is required"), w) else
  if decide (EditTodoRequest.UserId req = ""%string)
  then (Err (mkStatus InvalidArgument "user_id is required"), w) else
  match checkIdempotency (EditTodoRequest.IdempotencyKey req) w with
  | (LookupFailed, w) => (Err (mkStatus Internal "internal error"), w)
  | (Cached resp, w) => (Ok resp, w)
  | (Proceed, w) =>
      match Store.EditTodo (EditTodoRequest.TodoId req)
              (EditTodoRequest.UserId req) (EditTodoRequest.Title req)
              (EditTodoRequest.Description req) w with
      | (Err Store.ErrNotFound, w) => (Err (mkStatus NotFound "todo not found"), w)
      | (Err Store.ErrNotOwner, w) =>
          (Err (mkStatus PermissionDenied "you do not own this todo"), w)
      | (Err _, w) => (Err (mkStatus Internal "failed to edit todo"), w)
      | (Ok todo, w) =>
          let resp := Pb.mkResponse (Some (storeToProto todo)) in
          (Ok resp, storeIdempotency (EditTodoRequest.IdempotencyKey req) resp w)
      end
  end.

End Handlers.

(** [ListTodos] retrieves all todos for a user. *)
Definition ListTodos (req : ListTodosRequest.t) : M Pb.ListTodosResponse := fun w =>
  if decide (ListTodosRequest.UserId req = ""%string)
  then (Err (mkStatus InvalidArgument "user_id is required"), w) else
  let statusFilter :=
    match ListTodosRequest.Status req with
    | Pb.TODO_STATUS_ACTIVE => "active"%string
    | Pb.TODO_STATUS_COMPLETED => "completed"%string
    | Pb.TODO_STATUS_DELETED => "deleted"%string
    | Pb.TODO_STATUS_UNSPECIFIED => ""%string
    end in
  match Store.ListTodos (ListTodosRequest.UserId req) statusFilter w with
  | (Err _, w) => (Err (mkStatus Internal "failed to list todos"), w)
  | (Ok todos, w) => (Ok (Pb.mkListResponse (map storeToProto todos)), w)
  end.

(** The four mutating operations of the service, as one request type. *)
Inductive Request :=
| Create (req : CreateTodoRequest.t)
| Complete (req : CompleteTodoRequest.t)
| Delete (req : DeleteTodoRequest.t)
| Edit (req : EditTodoRequest.t).

Definition serve {codec : Pb.JSONCodec} (r : Request) : M Pb.TodoResponse :=
  match r with
  | Create req => CreateTodo req
  | Complete req => CompleteTodo req
  | Delete req => DeleteTodo req
  | Edit req => EditTodo req
  end.

Definition key_of (r : Request) : string :=
  match r with
  | Create req => CreateTodoRequest.IdempotencyKey req
  | Complete req => CompleteTodoRequest.IdempotencyKey req
  | Delete req => DeleteTodoRequest.IdempotencyKey req
  | Edit req => EditTodoRequest.IdempotencyKey req
  end.

(** The required-field checks at the head of each handler. *)
Definition valid (r : Request) : bool :=
  match r with
  | Create req =>
      negb (bool_decide (CreateTodoRequest.UserId req = ""%string)) &&
      negb (bool_decide (CreateTodoRequest.Title req = ""%string))
  | Complete req =>
      negb (bool_decide (CompleteTodoRequest.TodoId req = 0)) &&
      negb (bool_decide (CompleteTodoRequest.UserId req = ""%string))
  | Delete req =>
      negb (bool_decide (DeleteTodoRequest.TodoId req = 0)) &&
      negb (bool_decide (DeleteTodoRequest.UserId req = ""%string))
  | Edit req =>
      negb (bool_decide (EditTodoRequest.TodoId req = 0)) &&
      negb (bool_decide (EditTodoRequest.UserId req = ""%string))
  end.

(** The todo a request is aimed at, and the user it is made for. *)
Definition target (r : Request) : option Z :=
  match r with
  | Create _ => None
  | Complete req => Some (CompleteTodoRequest.TodoId req)
  | Delete req => Some (DeleteTodoRequest.TodoId req)
  | Edit req => Some (EditTodoRequest.TodoId req)
  end.

Definition caller (r : Request) : string :=
  match r with
  | Create req => CreateTodoRequest.UserId req
  | Complete req => CompleteTodoRequest.UserId req
  | Delete req => DeleteTodoRequest.UserId req
  | Edit req => EditTodoRequest.UserId req
  end.

(** The request carries no key, or a key that is not on record. *)
Definition unrecorded (key : string) (w : Store.World) : Prop :=
  key = EmptyString \/ Store.idempotency_keys w !! key = None.

(** The three stages every mutating handler goes through after the key
    lookup: the status it rejects an incomplete request with, the store
    call it makes, and the status it turns a store error into. *)
Definition rejection (r : Request) : Status :=
  match r with
  | Create req =>
      if decide (CreateTodoRequest.UserId req = EmptyString)
      then mkStatus InvalidArgument "user_id is required"
      else mkStatus InvalidArgument "title is required"
  | Complete req =>
      if decide (CompleteTodoRequest.TodoId req = 0)
      then mkStatus InvalidArgument "todo_id is required"
      else mkStatus InvalidArgument "user_id is required"
  | Delete req =>
      if decide (DeleteTodoRequest.TodoId req = 0)
      then mkStatus InvalidArgument "todo_id is required"
      else mkStatus InvalidArgument "user_id is required"
  | Edit req =>
      if decide (EditTodoRequest.TodoId req = 0)
      then mkStatus InvalidArgument "todo_id is required"
      else mkStatus InvalidArgument "user_id is required"
  end.

Definition mutation (r : Request) : Store.M Store.Todo := fun w =>
  match r with
  | Create req =>
      Store.CreateTodo (CreateTodoRequest.UserId req)
        (CreateTodoRequest.Title req) (CreateTodoRequest.Description req) w
  | Complete req =>
      let '(completedAt, w) :=
        match CompleteTodoRequest.CompletedAt req with
        | Some t => (t, w)
        | None => Store.time_Now w
        end in
      Store.CompleteTodo (CompleteTodoRequest.TodoId req)
        (CompleteTodoRequest.UserId req) completedAt w
  | Delete req =>
      Store.DeleteTodo (DeleteTodoRequest.TodoId req)
        (DeleteTodoRequest.UserId req) w
  | Edit req =>
      Store.EditTodo (EditTodoRequest.TodoId req) (EditTodoRequest.UserId req)
        (EditTodoRequest.Title req) (EditTodoRequest.Description req) w
  end.

Definition failure (r : Request) (e : Store.error) : Status :=
  match r, e with
  | Create _, _ => mkStatus Internal "failed to create todo"
  | _, Store.ErrNotFound => mkStatus NotFound "todo not found"
  | _, Store.ErrNotOwner => mkStatus PermissionDenied "you do not own this todo"
  | Complete _, _ => mkStatus Internal "failed to complete todo"
  | Delete _, _ => mkStatus Internal "failed to delete todo"
  | Edit _, _ => mkStatus Internal "failed to edit todo"
  end.

(** The four handlers written once over these stages; [serve_stages]
    below proves that each handler is this function. *)
Definition staged {codec : Pb.JSONCodec} (r : Request) : M Pb.TodoResponse :=
  fun w =>
  if negb (valid r) then (Err (rejection r), w) else
  match checkIdempotency (key_of r) w with
  | (LookupFailed, w) => (Err (mkStatus Internal "internal error"), w)
  | (Cached resp, w) => (Ok resp, w)
  | (Proceed, w) =>
      match mutation r w with
      | (Err e, w) => (Err (failure r e), w)
      | (Ok todo, w) =>
          let resp := Pb.mkResponse (Some (storeToProto todo)) in
          (Ok resp, storeIdempotency (key_of r) resp w)
      end
  end.

(** The statements that change the [todos] table. *)
Definition is_mutation (s : Store.Stmt) : bool :=
  match s with
  | Store.InsertTodo _ _ _ | Store.UpdateComplete _ _
  | Store.UpdateDelete _ _ | Store.UpdateEdit _ _ _ _ => true
  | _ => false
  end.

End Server.

(** ** Go strings: indexing, [range], and UTF-8 *)

Module GoString.

Definition byte (c : ascii) : Z := Z.of_N (N_of_ascii c).

Definition between (lo hi : Z) (c : ascii) : bool :=
  (lo <=? byte c) && (byte c <=? hi).

(** [unicode/utf8]: for a leading byte, the length of the encoding and the
    range accepted for the second byte; [None] for ASCII and for bytes
    that cannot start an encoding. *)
Definition first (b0 : Z) : option (nat * Z * Z) :=
  if b0 <? 0xC2 then None
  else if b0 <=? 0xDF then Some (2%nat, 0x80, 0xBF)
  else if b0 =? 0xE0 then Some (3%nat, 0xA0, 0xBF)
  else if b0 <=? 0xEC then Some (3%nat, 0x80, 0xBF)
  else if b0 =? 0xED then Some (3%nat, 0x80, 0x9F)
  else if b0 <=? 0xEF then Some (3%nat, 0x80, 0xBF)
  else if b0 =? 0xF0 then Some (4%nat, 0x90, 0xBF)
  else if b0 <=? 0xF3 then Some (4%nat, 0x80, 0xBF)
  else if b0 =? 0xF4 then Some (4%nat, 0x80, 0x8F)
  else None.

(** The number of bytes the code point at the head of [s] occupies; an
    invalid or truncated encoding counts as one byte. *)
Definition rune_width (s : string) : nat :=
  match s with
  | EmptyString => 0%nat
  | String c0 s1 =>
      match first (byte c0) with
      | None => 1%nat
      | Some (sz, lo, hi) =>
          match s1 with
          | EmptyString => 1%nat
          | String c1 s2 =>
              if negb (between lo hi c1) then 1%nat
              else if (sz <=? 2)%nat then 2%nat
              else
                match s2 with
                | EmptyString => 1%nat
                | String c2 s3 =>
                    if negb (between 0x80 0xBF c2) then 1%nat
                    else if (sz <=? 3)%nat then 3%nat
                    else
                      match s3 with
                      | EmptyString => 1%nat
                      | String c3 _ =>
                          if negb (between 0x80 0xBF c3) then 1%nat else 4%nat
                      end
                end
          end
      end
  end.

(** [s[i:j]] for [0 <= i <= j <= len(s)]. *)
Definition slice (s : string) (i j : Z) : string :=
  String.substring (Z.to_nat i) (Z.to_nat (j - i)) s.

Definition len (s : string) : Z := Z.of_nat (String.length s).

End GoString.

(** ** services/command/internal/domain: the client of todo-domain *)

Module Domain.

(** [ListTodosFilter] contains optional filters for listing todos. *)
Record ListTodosFilter := mkFilter {
  Status : Pb.TodoStatus;
  CompletedAfter : option Z;
  CompletedBefore : option Z }.

(** [ListTodos] retrieves todos for a user with optional filters.  The
    remote call is the server's handler. *)
Definition ListTodos (userID : string) (filter : ListTodosFilter) :
    Server.M (list Pb.Todo) := fun w =>
  let req := ListTodosRequest.mk userID (Status filter)
               (CompletedAfter filter) (CompletedBefore filter) in
  match Server.ListTodos req w with
  | (Err e, w) => (Err e, w)
  | (Ok resp, w) => (Ok (Pb.Todos resp), w)
  end.

Definition lower (c : ascii) : ascii :=
  if GoString.between 65 90 c
  then ascii_of_N (N_of_ascii c + 32)
  else c.

(** The loop of [toLower].  [b] starts as [len(s)] zero bytes, and
    [for i := range s] visits the index of the first byte of each code
    point only: [skip] counts the bytes of the current code point still to
    pass, whose cells of [b] keep their zero. *)
Fixpoint toLower_from (skip : nat) (s : string) : string :=
  match s with
  | EmptyString => EmptyString
  | String c rest =>
      match skip with
      | S k => String zero (toLower_from k rest)
      | O => String (lower c) (toLower_from (GoString.rune_width s - 1) rest)
      end
  end.

Definition toLower (s : string) : string := toLower_from 0 s.

(** The loop of [contains]: [for i := 0; i <= len(s)-len(substr); i++]. *)
Fixpoint contains_loop (fuel : nat) (i : Z) (s substr : string) : bool :=
  match fuel with
  | O => false
  | S fuel' =>
      if i <=? GoString.len s - GoString.len substr then
        if String.eqb (GoString.slice s i (i + GoString.len substr)) substr
        then true
        else contains_loop fuel' (i + 1) s substr
      else false
  end.

(** [i] runs over at most [len(s) + 1] values. *)
Definition contains (s substr : string) : bool :=
  contains_loop (S (String.length s)) 0 s substr.

(** [containsIgnoreCase] checks if [s] contains [substr]
    (case-insensitive). *)
Definition containsIgnoreCase (s substr : string) : bool :=
  let sLower := toLower s in
  let substrLower := toLower substr in
  contains sLower substrLower.

(** The loop of [FindTodoByTitle] over the listed todos. *)
Fixpoint first_match (titleHint : string) (todos : list Pb.Todo) : option Pb.Todo :=
  match todos with
  | [] => None
  | todo :: rest =>
      if containsIgnoreCase (Pb.Title todo) titleHint then Some todo
      else first_match titleHint rest
  end.

(** [FindTodoByTitle] searches for a todo by partial title match; it
    returns the first matching active todo, or [None] if not found. *)
Definition FindTodoByTitle (userID titleHint : string) :
    Server.M (option Pb.Todo) := fun w =>
  match ListTodos userID (mkFilter Pb.TODO_STATUS_ACTIVE None None) w with
  | (Err e, w) => (Err e, w)
  | (Ok todos, w) => (Ok (first_match titleHint todos), w)
  end.

(** What the documentation of [containsIgnoreCase] asks for, stated
    without the code: two bytes agree up to the case of an ASCII letter,
    two strings agree when they do so byte by byte, and [hint] occurs in
    [title] when some substring of [title] agrees with it. *)
Definition same_letter (c d : ascii) : Prop :=
  c = d \/
  (GoString.between 65 90 c = true /\ GoString.byte d = GoString.byte c + 32) \/
  (GoString.between 65 90 d = true /\ GoString.byte c = GoString.byte d + 32).

Fixpoint same_text (a b : string) : Prop :=
  match a, b with
  | EmptyString, EmptyString => True
  | String c a', String d b' => same_letter c d /\ same_text a' b'
  | _, _ => False
  end.

Definition occurs_ignoring_case (title hint : string) : Prop :=
  exists pre mid post,
    title = String.append pre (String.append mid post) /\ same_text mid hint.

(** The strings without multi-byte characters. *)
Fixpoint ascii_only (s : string) : Prop :=
  match s with
  | EmptyString => True
  | String c rest => GoString.byte c < 128 /\ ascii_only rest
  end.

End Domain.

(** ** services/ingress: the webhook that produces envelopes *)

Module AudioMessage.
(** [publisher.AudioMessage]: a voice memo message for transcription. *)
Record t := mk {
  UserID : string;
  MediaURL : string;
  MessageSid : string;
  IdempotencyKey : string }.
End AudioMessage.

Module TextMessage.
(** [publisher.TextMessage]: a text command message. *)
Record t := mk {
  UserID : string;
  CommandText : string;
  MessageSid : string;
  IdempotencyKey : string }.
End TextMessage.

Module Strings.

(** The white space of [strings.TrimSpace], as UTF-8 byte sequences: the
    six ASCII characters, U+0085, U+00A0, U+1680, U+2000..U+200A, U+2028,
    U+2029, U+202F, U+205F and U+3000. *)
Definition ascii_space (c : ascii) : bool :=
  GoString.between 9 13 c || (GoString.byte c =? 32).

Definition space_prefix (s : string) : nat :=
  match s with
  | String c0 (String c1 (String c2 _)) =>
      let b0 := GoString.byte c0 in
      let b1 := GoString.byte c1 in
      let b2 := GoString.byte c2 in
      if ascii_space c0 then 1%nat
      else if (b0 =? 0xC2) && ((b1 =? 0x85) || (b1 =? 0xA0)) then 2%nat
      else if (b0 =? 0xE1) && (b1 =? 0x9A) && (b2 =? 0x80) then 3%nat
      else if (b0 =? 0xE2) && (b1 =? 0x80) &&
              (((0x80 <=? b2) && (b2 <=? 0x8A)) || (b2 =? 0xA8) ||
               (b2 =? 0xA9) || (b2 =? 0xAF)) then 3%nat
      else if (b0 =? 0xE2) && (b1 =? 0x81) && (b2 =? 0x9F) then 3%nat
      else if (b0 =? 0xE3) && (b1 =? 0x80) && (b2 =? 0x80) then 3%nat
      else 0%nat
  | String c0 (String c1 _) =>
      let b0 := GoString.byte c0 in
      let b1 := GoString.byte c1 in
      if ascii_space c0 then 1%nat
      else if (b0 =? 0xC2) && ((b1 =? 0x85) || (b1 =? 0xA0)) then 2%nat
      else 0%nat
  | String c0 _ => if ascii_space c0 then 1%nat else 0%nat
  | EmptyString => 0%nat
  end.

(** Drop leading white space; [fuel] bounds the number of characters. *)
Fixpoint trim_left (fuel : nat) (s : string) : string :=
  match fuel with
  | O => s
  | S fuel' =>
      match space_prefix s with
      | O => s
      | n => trim_left fuel' (String.substring n (String.length s - n) s)
      end
  end.

Definition rev_string (s : string) : string :=
  string_of_list_ascii (List.rev (list_ascii_of_string s)).

(** The same white space read from the end of the string. *)
Definition space_suffix (r : string) : nat :=
  match r with
  | String c2 (String c1 (String c0 _)) =>
      let b0 := GoString.byte c0 in
      let b1 := GoString.byte c1 in
      let b2 := GoString.byte c2 in
      if ascii_space c2 then 1%nat
      else if (b1 =? 0xC2) && ((b2 =? 0x85) || (b2 =? 0xA0)) then 2%nat
      else if (b0 =? 0xE1) && (b1 =? 0x9A) && (b2 =? 0x80) then 3%nat
      else if (b0 =? 0xE2) && (b1 =? 0x80) &&
              (((0x80 <=? b2) && (b2 <=? 0x8A)) || (b2 =? 0xA8) ||
               (b2 =? 0xA9) || (b2 =? 0xAF)) then 3%nat
      else if (b0 =? 0xE2) && (b1 =? 0x81) && (b2 =? 0x9F) then 3%nat
      else if (b0 =? 0xE3) && (b1 =? 0x80) && (b2 =? 0x80) then 3%nat
      else 0%nat
  | String c2 (String c1 _) =>
      let b1 := GoString.byte c1 in
      let b2 := GoString.byte c2 in
      if ascii_space c2 then 1%nat
      else if (b1 =? 0xC2) && ((b2 =? 0x85) || (b2 =? 0xA0)) then 2%nat
      else 0%nat
  | String c2 _ => if ascii_space c2 then 1%nat else 0%nat
  | EmptyString => 0%nat
  end.

Fixpoint trim_right_rev (fuel : nat) (r : string) : string :=
  match fuel with
  | O => r
  | S fuel' =>
      match space_suffix r with
      | O => r
      | n => trim_right_rev fuel' (String.substring n (String.length r - n) r)
      end
  end.

(** [strings.TrimSpace]: [s] without leading and trailing white space. *)
Definition TrimSpace (s : string) : string :=
  let l := trim_left (String.length s) s in
  rev_string (trim_right_rev (String.length l) (rev_string l)).

End Strings.

Module Handler.

(** [Publisher] defines the interface for message publishing; [P] is the
    state of the implementation, and the boolean says whether the call
    returned an error. *)
Class Publisher (P : Type) := {
  PublishAudio : AudioMessage.t -> P -> bool * P;
  PublishText : TextMessage.t -> P -> bool * P }.

(** [mockPublisher] of webhook_test.go records published messages. *)
Record mockPublisher := mkMock {
  audioMessages : list AudioMessage.t;
  textMessages : list TextMessage.t;
  audioErr : bool;
  textErr : bool }.

#[global] Instance mockPublisher_Publisher : Publisher mockPublisher := {
  PublishAudio msg m :=
    if audioErr m then (true, m)
    else (false, mkMock (audioMessages m ++ [msg]) (textMessages m)
                        (audioErr m) (textErr m));
  PublishText msg m :=
    if textErr m then (true, m)
    else (false, mkMock (audioMessages m) (textMessages m ++ [msg])
                        (audioErr m) (textErr m)) }.

(** The part of [http.Request] the handler reads.  [ParseFormFails] says
    that [r.ParseForm()] returns an error. *)
Record Request := mkRequest {
  Method : string;
  ParseFormFails : bool;
  Form : gmap string (list string);
  PostForm : gmap string (list string);
  XTwilioSignature : string;
  TLS : bool;
  Host : string;
  Path : string }.

(** [r.FormValue key]: the first value for the key, or the empty string. *)
Definition FormValue (r : Request) (key : string) : string :=
  match Form r !! key with
  | Some (v :: _) => v
  | _ => ""%string
  end.

(** What the handler writes to the [http.ResponseWriter]. *)
Record Response := mkResponse {
  StatusCode : Z;
  ContentType : string;
  ResponseBody : string }.

(** [http.Error w msg code]. *)
Definition http_Error (msg : string) (code : Z) : Response :=
  mkResponse code "text/plain; charset=utf-8"
    (String.append msg (String "010"%char EmptyString)).

Definition StatusOK : Z := 200.
Definition StatusBadRequest : Z := 400.
Definition StatusForbidden : Z := 403.
Definition StatusMethodNotAllowed : Z := 405.
Definition StatusInternalServerError : Z := 500.

(** [WebhookHandler] handles Twilio SMS/MMS webhooks.  [Validate] is the
    request validator of the Twilio client library, applied to the auth
    token, the URL, the parameters and the signature. *)
Record WebhookHandler := mkHandler {
  twilioAuthToken : string;
  webhookURL : string;
  Validate : string -> string -> gmap string string -> string -> bool }.

Definition validateSignature (h : WebhookHandler) (r : Request) : bool :=
  let signature := XTwilioSignature r in
  if decide (signature = ""%string) then false else
  let url :=
    if decide (webhookURL h = ""%string)
    then String.append (if TLS r then "https" else "http")
           (String.append "://" (String.append (Host r) (Path r)))
    else webhookURL h in
  let params := omap (fun values => head values) (PostForm r) in
  Validate h (twilioAuthToken h) url params signature.

Section WithPublisher.
Context {P : Type} {pub : Publisher P}.

Definition handleAudioMessage (from mediaURL messageSid idemKey : string)
    (p : P) : bool * P :=
  let msg := AudioMessage.mk from mediaURL messageSid idemKey in
  PublishAudio msg p.

Definition handleTextMessage (from body messageSid idemKey : string)
    (p : P) : bool * P :=
  let msg := TextMessage.mk from (Strings.TrimSpace body) messageSid idemKey in
  PublishText msg p.

Definition quote : string := String "034"%char EmptyString.

(** The empty TwiML response. *)
Definition twiml : Response :=
  mkResponse StatusOK "text/xml"
    (String.concat quote
       ["<?xml version="; "1.0"; " encoding="; "UTF-8";
        "?><Response></Response>"]%string).

(** [HandleSMS] handles incoming SMS/MMS webhooks from Twilio. *)
Definition HandleSMS (h : WebhookHandler) (r : Request) (p : P) : Response * P :=
  if decide (Method r <> "POST"%string)
  then (http_Error "Method not allowed" StatusMethodNotAllowed, p) else
  if ParseFormFails r
  then (http_Error "Bad request" StatusBadRequest, p) else
  let from := FormValue r "From" in
  let body := FormValue r "Body" in
  let messageSid := FormValue r "MessageSid" in
  let numMedia := FormValue r "NumMedia" in
  let mediaURL := FormValue r "MediaUrl0" in
  if decide (from = ""%string \/ messageSid = ""%string)
  then (http_Error "Missing required fields" StatusBadRequest, p) else
  if bool_decide (twilioAuthToken h <> ""%string) && negb (validateSignature h r)
  then (http_Error "Invalid signature" StatusForbidden, p) else
  let idemKey := Idempotency.GenerateKey messageSid in
  if decide (numMedia <> ""%string /\ numMedia <> "0"%string /\
             mediaURL <> ""%string) then
    match handleAudioMessage from mediaURL messageSid idemKey p with
    | (true, p) => (http_Error "Internal server error" StatusInternalServerError, p)
    | (false, p) => (twiml, p)
    end
  else if decide (body <> ""%string) then
    match handleTextMessage from body messageSid idemKey p with
    | (true, p) => (http_Error "Internal server error" StatusInternalServerError, p)
    | (false, p) => (twiml, p)
    end
  else (http_Error "Empty message" StatusBadRequest, p).

End WithPublisher.

(** The checks [HandleSMS] makes before it classifies the event: the
    method, the form, the required fields and the signature. *)
Definition accepted (h : WebhookHandler) (r : Request) : Prop :=
  Method r = "POST"%string /\ ParseFormFails r = false /\
  FormValue r "From" <> EmptyString /\ FormValue r "MessageSid" <> EmptyString /\
  (twilioAuthToken h = EmptyString \/ validateSignature h r = true).

(** The event carries a media reference with a media count that is
    neither empty nor zero. *)
Definition has_media (r : Request) : Prop :=
  FormValue r "NumMedia" <> EmptyString /\ FormValue r "NumMedia" <> "0"%string /\
  FormValue r "MediaUrl0" <> EmptyString.

End Handler.

(** ** services/command/internal/consumer *)

Module Consumer.

(** [TextMessage] matches the format published by ingress-svc. *)
Record TextMessage := mkTextMessage {
  UserID : string;
  CommandText : string;
  MessageSid : string;
  IdempotencyKey : string }.

(** [amqp.Delivery]: the tag the broker gave the delivery, and its body. *)
Record Delivery := mkDelivery {
  DeliveryTag : Z;
  Body : string }.

(** The acknowledgement calls on a delivery, with their flags. *)
Inductive Acknowledgement :=
| Ack (multiple : bool)
| Nack (multiple requeue : bool).

(** What the [select] of the loop receives next: the context is done, the
    deliveries channel is closed, or a delivery arrives. *)
Inductive Event :=
| CtxDone
| ChannelClosed
| Deliver (d : Delivery).

Inductive StartError := ErrContext | ErrChannelClosed.

(** The consumer's effects so far: the acknowledgement calls made, each
    with the tag of its delivery, the messages the handler was called
    with, and the state of whatever the handler works on. *)
Record Run (H : Type) := mkRun {
  acks : list (Z * Acknowledgement);
  invocations : list TextMessage;
  handler_state : H }.
Arguments mkRun {H}.
Arguments acks {H}.
Arguments invocations {H}.
Arguments handler_state {H}.

Section Loop.
Context {H : Type}.

(** [json.Unmarshal(delivery.Body, &msg)] into a [TextMessage]. *)
Variable Unmarshal : string -> option TextMessage.

(** [Handler] is called for each message received; [true] is an error. *)
Variable handler : TextMessage -> H -> bool * H.

(** The loop of [Start] over the events its [select] receives.  An
    exhausted list leaves the loop blocked in [select]. *)
Fixpoint Start (events : list Event) (run : Run H) : option StartError * Run H :=
  match events with
  | [] => (None, run)
  | CtxDone :: _ => (Some ErrContext, run)
  | ChannelClosed :: _ => (Some ErrChannelClosed, run)
  | Deliver delivery :: rest =>
      match Unmarshal (Body delivery) with
      | None =>
          Start rest
            (mkRun (acks run ++ [(DeliveryTag delivery, Nack false false)])
                   (invocations run) (handler_state run))
      | Some msg =>
          let '(failed, h) := handler msg (handler_state run) in
          if failed then
            Start rest
              (mkRun (acks run ++ [(DeliveryTag delivery, Nack false true)])
                     (invocations run ++ [msg]) h)
          else
            Start rest
              (mkRun (acks run ++ [(DeliveryTag delivery, Ack false)])
                     (invocations run ++ [msg]) h)
      end
  end.

(** The deliveries the loop takes before it returns. *)
Fixpoint received (events : list Event) : list Delivery :=
  match events with
  | Deliver d :: rest => d :: received rest
  | _ => []
  end.

End Loop.

End Consumer.

(** ** Sample data *)

Module Sample.

(** A todo of alice, in each of the three states. *)
Definition alice_todo (id : Z) (status : string) : Store.Todo :=
  Store.mkTodo id "alice" "buy milk" "2 litres" status 100 100 None None.

(** A database holding todo 1 (active), 2 (completed) and 3 (deleted) of
    alice, no idempotency record, and no failure ahead. *)
Definition world : Store.World :=
  Store.mkWorld
    (<[1 := alice_todo 1 "active"]>
       (<[2 := alice_todo 2 "completed"]>
          (<[3 := alice_todo 3 "deleted"]> ∅)))
    ∅ 4 1000 [] [].

(** The response to alice's request that created todo 1, as the server
    cached it under the key [idem_k]. *)
Definition cached : Pb.TodoResponse :=
  Pb.mkResponse (Some (Server.storeToProto (alice_todo 1 "active"))).



(** The database is about to fail on the third statement it receives. *)
Definition failing_world : Store.World :=
  Store.mkWorld (Store.todos world) ∅ 4 1000 [false; false; true] [].

(** Webhook requests: a form with one value per field, posted to a
    handler that has no auth token configured. *)
Definition form (fields : list (string * string)) : gmap string (list string) :=
  list_to_map (map (fun kv => (fst kv, [snd kv])) fields).

Definition post (fields : list (string * string)) : Handler.Request :=
  Handler.mkRequest "POST" false (form fields) (form fields) EmptyString
    true "hound.example" "/webhooks/sms".

Definition handler : Handler.WebhookHandler :=
  Handler.mkHandler EmptyString EmptyString (fun _ _ _ _ => false).

Definition mock : Handler.mockPublisher := Handler.mkMock [] [] false false.

(** An MMS with a media reference and a text body. *)
Definition mms : Handler.Request :=
  post [ ("From", "+15551234567"); ("MessageSid", "SM123");
         ("Body", "some text"); ("NumMedia", "1");
         ("MediaUrl0", "https://api.twilio.com/media/ME123") ]%string.

(** An SMS whose body is three spaces. *)
Definition blank_sms : Handler.Request :=
  post [ ("From", "+15551234567"); ("MessageSid", "SM123");
         ("Body", "   ") ]%string.

(** The two-byte titles U+00E9 and U+00FC in UTF-8. *)
Definition e_acute : string := String "195"%char (String "169"%char EmptyString).
Definition u_umlaut : string := String "195"%char (String "188"%char EmptyString).

(** A database whose only todo is alice's active todo 1, titled U+00E9. *)
Definition accented_world : Store.World :=
  Store.mkWorld
    (<[1 := Store.mkTodo 1 "alice" e_acute "" "active" 100 100 None None]> ∅)
    ∅ 2 1000 [] [].

End Sample.

(* ===================================================================== *)
(** * Part II: the properties *)
(* ===================================================================== *)

#[local] Arguments Store.CreateTodo : simpl never.
#[local] Arguments Store.CompleteTodo : simpl never.
#[local] Arguments Store.DeleteTodo : simpl never.
#[local] Arguments Store.EditTodo : simpl never.
#[local] Arguments Store.GetTodo : simpl never.
#[local] Arguments Store.ListTodos : simpl never.
#[local] Arguments Store.CheckIdempotencyKey : simpl never.
#[local] Arguments Store.StoreIdempotencyKey : simpl never.
#[local] Arguments Store.send : simpl never.
#[local] Arguments Server.checkIdempotency : simpl never.
#[local] Arguments Server.storeIdempotency : simpl never.

(** ** The idempotency key *)

Section KeyFacts.

Lemma be_bytes_length width x : List.length (SHA256.be_bytes width x) = width.
Proof. unfold SHA256.be_bytes. rewrite length_map. apply length_seq. Qed.

Lemma be_bytes_range width x b :
  In b (SHA256.be_bytes width x) -> 0 <= b < 256.
Proof.
  unfold SHA256.be_bytes. rewrite in_map_iff. intros (i & <- & _).
  apply Z.mod_pos_bound. lia.
Qed.

Lemma Sum256_length msg : List.length (SHA256.Sum256 msg) = 32%nat.
Proof.
  unfold SHA256.Sum256, SHA256.state_bytes.
  rewrite !length_app, !be_bytes_length. reflexivity.
Qed.

Lemma Sum256_range msg b : In b (SHA256.Sum256 msg) -> 0 <= b < 256.
Proof.
  unfold SHA256.Sum256, SHA256.state_bytes.
  rewrite !in_app_iff. intros H.
  repeat (destruct H as [H | H]; [ eapply be_bytes_range; exact H | ]).
  eapply be_bytes_range; exact H.
Qed.

Lemma string_length_append (s1 s2 : string) :
  String.length (String.append s1 s2) = (String.length s1 + String.length s2)%nat.
Proof. induction s1 as [| c s1 IH]; simpl; [reflexivity | rewrite IH; reflexivity]. Qed.

Lemma string_append_cancel (p a b : string) :
  String.append p a = String.append p b -> a = b.
Proof.
  induction p as [| c p IH]; simpl; [tauto |].
  intros E. injection E as E. apply IH. exact E.
Qed.

Lemma EncodeToString_length src :
  String.length (Hex.EncodeToString src) = (2 * List.length src)%nat.
Proof. induction src as [| v rest IH]; simpl; [reflexivity | rewrite IH; lia]. Qed.

(** The sixteen digits are pairwise distinct. *)
Lemma digit_inj a b :
  0 <= a < 16 -> 0 <= b < 16 -> Hex.digit a = Hex.digit b -> a = b.
Proof.
  intros Ha Hb.
  replace a with (Z.of_nat (Z.to_nat a)) by lia.
  replace b with (Z.of_nat (Z.to_nat b)) by lia.
  assert (Hna : (Z.to_nat a < 16)%nat) by lia.
  assert (Hnb : (Z.to_nat b < 16)%nat) by lia.
  revert Hna Hnb. generalize (Z.to_nat a) (Z.to_nat b). clear.
  intros n m Hn Hm.
  do 16 (destruct n as [| n]; [
    do 16 (destruct m as [| m]; [ vm_compute; intros E; first [reflexivity | discriminate E] | ]);
    exfalso; lia | ]).
  exfalso; lia.
Qed.

Lemma nibbles_inj v v' :
  0 <= v < 256 -> 0 <= v' < 256 ->
  Z.shiftr v 4 = Z.shiftr v' 4 -> Z.land v 0x0f = Z.land v' 0x0f -> v = v'.
Proof.
  intros Hv Hv'. rewrite !Z.shiftr_div_pow2 by lia.
  change 0x0f with (Z.ones 4). rewrite !Z.land_ones by lia.
  change (2 ^ 4) with 16. intros Hq Hr.
  rewrite (Z.div_mod v 16), (Z.div_mod v' 16) by lia. congruence.
Qed.

Lemma EncodeToString_inj l l' :
  Forall (fun b => 0 <= b < 256) l -> Forall (fun b => 0 <= b < 256) l' ->
  Hex.EncodeToString l = Hex.EncodeToString l' -> l = l'.
Proof.
  intros Hl. revert l'. induction Hl as [| v l Hv Hl IH]; intros l' Hl' E.
  - destruct l'; [reflexivity | discriminate E].
  - destruct Hl' as [| v' l' Hv' Hl']; [discriminate E |].
    simpl in E. injection E as E1 E2 E3.
    assert (Hs : 0 <= Z.shiftr v 4 < 16 /\ 0 <= Z.shiftr v' 4 < 16).
    { rewrite !Z.shiftr_div_pow2 by lia. change (2 ^ 4) with 16.
      split; split; try (apply Z.div_pos; lia);
        apply Z.div_lt_upper_bound; lia. }
    assert (Hm : 0 <= Z.land v 0x0f < 16 /\ 0 <= Z.land v' 0x0f < 16).
    { change 0x0f with (Z.ones 4). rewrite !Z.land_ones by lia.
      split; apply Z.mod_pos_bound; lia. }
    f_equal.
    + apply nibbles_inj; try assumption; apply digit_inj; tauto.
    + apply IH; assumption.
Qed.

Lemma Sum256_bytes msg : Forall (fun b => 0 <= b < 256) (SHA256.Sum256 msg).
Proof.
  apply List.Forall_forall. intros b Hb. eapply Sum256_range; exact Hb.
Qed.

End KeyFacts.

(** ** The store: ownership, settled todos, edits *)

(** Split a world into its fields and its failure schedule into the
    outcomes of the next three statements. *)
Ltac split_faults w :=
  let td := fresh "td" in let ik := fresh "ik" in let sq := fresh "sq" in
  let ck := fresh "ck" in let fl := fresh "fl" in let jr := fresh "jr" in
  destruct w as [td ik sq ck fl jr];
  destruct fl as [| [] [| [] [| [] fl]]].

Ltac run_store :=
  unfold Store.CompleteTodo, Store.DeleteTodo, Store.EditTodo, Store.GetTodo,
    Store.update_where, Store.send, Store.time_Now, Store.answers,
    Store.set_todos.

Ltac not_found_free :=
  cbn; first [ discriminate
             | intros E; injection E as <-; discriminate
             | congruence ].

Section StoreFacts.
Import Store.

Lemma CompleteTodo_foreign w id userID completedAt t :
  todos w !! id = Some t -> UserID t <> userID ->
  fst (CompleteTodo id userID completedAt w) <> Err ErrNotFound /\
  todos (snd (CompleteTodo id userID completedAt w)) = todos w /\
  (answers 2 w = true ->
   fst (CompleteTodo id userID completedAt w) = Err ErrNotOwner).
Proof.
  intros Ht Hne. run_store.
  split_faults w; cbn in Ht |- *; rewrite ?Ht; cbn;
    rewrite ?(bool_decide_eq_false_2 _ Hne); cbn; rewrite ?Ht; cbn;
    try (destruct (decide (UserID t <> userID)); [| tauto]); cbn;
    repeat split; try discriminate; try reflexivity; try congruence.
Qed.

Lemma DeleteTodo_foreign w id userID t :
  todos w !! id = Some t -> UserID t <> userID ->
  fst (DeleteTodo id userID w) <> Err ErrNotFound /\
  todos (snd (DeleteTodo id userID w)) = todos w /\
  (answers 2 w = true -> fst (DeleteTodo id userID w) = Err ErrNotOwner).
Proof.
  intros Ht Hne. run_store.
  split_faults w; cbn in Ht |- *; rewrite ?Ht; cbn;
    rewrite ?(bool_decide_eq_false_2 _ Hne); cbn; rewrite ?Ht; cbn;
    try (destruct (decide (UserID t <> userID)); [| tauto]); cbn;
    repeat split; try discriminate; try reflexivity; try congruence.
Qed.

Lemma EditTodo_foreign w id userID title description t :
  todos w !! id = Some t -> UserID t <> userID ->
  fst (EditTodo id userID title description w) <> Err ErrNotFound /\
  todos (snd (EditTodo id userID title description w)) = todos w /\
  (answers 2 w = true ->
   fst (EditTodo id userID title description w) = Err ErrNotOwner).
Proof.
  intros Ht Hne. run_store.
  split_faults w; cbn in Ht |- *; rewrite ?Ht; cbn;
    rewrite ?(bool_decide_eq_false_2 _ Hne); cbn; rewrite ?Ht; cbn;
    try (destruct (decide (UserID t <> userID)); [| tauto]); cbn;
    repeat split; try discriminate; try reflexivity; try congruence.
Qed.

End StoreFacts.

Section ServerFacts.
Import Store.
Context {codec : Pb.JSONCodec}.

Lemma send_tables s w :
  todos (snd (send s w)) = todos w /\
  idempotency_keys (snd (send s w)) = idempotency_keys w /\
  todos_id_seq (snd (send s w)) = todos_id_seq w.
Proof. unfold send. destruct (faults w); cbn; auto. Qed.

Lemma checkIdempotency_tables key w :
  todos (snd (Server.checkIdempotency key w)) = todos w /\
  idempotency_keys (snd (Server.checkIdempotency key w)) = idempotency_keys w /\
  todos_id_seq (snd (Server.checkIdempotency key w)) = todos_id_seq w.
Proof.
  unfold Server.checkIdempotency, CheckIdempotencyKey.
  destruct (decide (key <> EmptyString)); [| cbn; auto].
  pose proof (send_tables (SelectIdempotencyKey key) w) as Hs.
  destruct (send (SelectIdempotencyKey key) w) as [[] w1]; cbn in *; [tauto |].
  destruct (idempotency_keys w1 !! key) as [r |]; cbn; [| tauto].
  destruct (Pb.Unmarshal (response r)); cbn; tauto.
Qed.


Lemma serve_foreign_never_not_found w r id t st :
  Server.target r = Some id -> todos w !! id = Some t ->
  UserID t <> Server.caller r ->
  fst (Server.serve r w) = Err st -> Server.code st <> Server.NotFound.
Proof.
  intros Htarget Ht Hne.
  destruct r as [req | req | req | req]; cbn in Htarget, Hne |- *;
    [discriminate Htarget | | |]; injection Htarget as Hid; subst id.
  - unfold Server.CompleteTodo.
    repeat (destruct (decide _); [not_found_free |]).
    pose proof (checkIdempotency_tables (CompleteTodoRequest.IdempotencyKey req) w) as (Hw1 & _).
    destruct (Server.checkIdempotency _ w) as [[| resp |] w1]; cbn in Hw1;
      try not_found_free.
    assert (Hany : forall c w2, todos w2 = todos w ->
      fst (CompleteTodo (CompleteTodoRequest.TodoId req)
             (CompleteTodoRequest.UserId req) c w2) <> Err ErrNotFound).
    { intros c w2 Hw2. eapply CompleteTodo_foreign; [rewrite Hw2 |]; eassumption. }
    destruct (CompleteTodoRequest.CompletedAt req) as [c |]; cbn.
    + specialize (Hany c w1 Hw1).
      destruct (CompleteTodo _ _ c w1) as [[todo | []] w2]; cbn in Hany;
        try not_found_free.
    + specialize (Hany (clock w1) (snd (time_Now w1)) Hw1).
      cbn in Hany.
      destruct (CompleteTodo _ _ _ _) as [[todo | []] w2]; cbn in Hany;
        try not_found_free.
  - unfold Server.DeleteTodo.
    repeat (destruct (decide _); [not_found_free |]).
    pose proof (checkIdempotency_tables (DeleteTodoRequest.IdempotencyKey req) w) as (Hw1 & _).
    destruct (Server.checkIdempotency _ w) as [[| resp |] w1]; cbn in Hw1;
      try not_found_free.
    pose proof (DeleteTodo_foreign w1 _ _ t ltac:(rewrite Hw1; exact Ht) Hne) as (Hany & _).
    destruct (DeleteTodo _ _ w1) as [[todo | []] w2]; cbn in Hany;
      try not_found_free.
  - unfold Server.EditTodo.
    repeat (destruct (decide _); [not_found_free |]).
    pose proof (checkIdempotency_tables (EditTodoRequest.IdempotencyKey req) w) as (Hw1 & _).
    destruct (Server.checkIdempotency _ w) as [[| resp |] w1]; cbn in Hw1;
      try not_found_free.
    pose proof (EditTodo_foreign w1 _ _ (EditTodoRequest.Title req)
                  (EditTodoRequest.Description req) t
                  ltac:(rewrite Hw1; exact Ht) Hne) as (Hany & _).
    destruct (EditTodo _ _ _ _ w1) as [[todo | []] w2]; cbn in Hany;
      try not_found_free.
Qed.

Lemma answers_S n w : answers (S n) w = true -> answers n w = true.
Proof.
  unfold answers. generalize (faults w). induction n as [| n IH]; intros fl H.
  - reflexivity.
  - destruct fl as [| f fl]; [reflexivity |]. cbn in H |- *.
    apply andb_true_iff in H as [Hf H]. rewrite Hf. cbn. apply IH. exact H.
Qed.

Lemma time_Now_tables w :
  todos (snd (time_Now w)) = todos w /\
  idempotency_keys (snd (time_Now w)) = idempotency_keys w /\
  todos_id_seq (snd (time_Now w)) = todos_id_seq w /\
  faults (snd (time_Now w)) = faults w /\
  journal (snd (time_Now w)) = journal w.
Proof. cbn. auto. Qed.

(** Without a record for the key the handler goes on to the mutation, and
    the lookup costs at most one statement. *)
Lemma checkIdempotency_unrecorded key w n :
  Server.unrecorded key w -> answers (S n) w = true ->
  exists w1,
    Server.checkIdempotency key w = (Server.Proceed, w1) /\
    todos w1 = todos w /\ idempotency_keys w1 = idempotency_keys w /\
    todos_id_seq w1 = todos_id_seq w /\ answers n w1 = true.
Proof.
  intros Hkey Hanswers. unfold Server.checkIdempotency.
  destruct (decide (key <> EmptyString)) as [Hne | He].
  - destruct Hkey as [-> | Hkey]; [congruence |].
    unfold CheckIdempotencyKey, send, answers in *.
    destruct w as [td ik sq ck fl jr]; cbn in *.
    destruct fl as [| [] fl]; cbn in *; try discriminate;
      rewrite Hkey; eexists; (split; [reflexivity |]); cbn;
      repeat split; try assumption.
    destruct n; reflexivity.
  - exists w. repeat split; try reflexivity. apply answers_S. exact Hanswers.
Qed.

End ServerFacts.


(** ** The handlers in stages *)

Section Stages.
Context {codec : Pb.JSONCodec}.

Lemma serve_stages r w : Server.serve r w = Server.staged r w.
Proof.
  unfold Server.staged.
  destruct r as [req | req | req | req]; cbn;
    [ unfold Server.CreateTodo | unfold Server.CompleteTodo
    | unfold Server.DeleteTodo | unfold Server.EditTodo ];
    repeat (destruct (decide _) as [? | ?]; cbn;
            rewrite ?bool_decide_eq_true_2, ?bool_decide_eq_false_2 by assumption;
            cbn; try reflexivity).
  all: destruct (Server.checkIdempotency _ w) as [[| resp |] w1]; try reflexivity.
  all: cbn.
  all: try destruct (CompleteTodoRequest.CompletedAt req); cbn.
  all: match goal with
       | |- context [let (_, _) := ?call in _] =>
           destruct call as [[todo | []] w2]; reflexivity
       end.
Qed.
End Stages.

Section Healthy.
Import Store.
Context {codec : Pb.JSONCodec}.



(** Whatever happens, a handler's closing block leaves the todos alone,
    and without a stored record the table of keys is as before. *)
Lemma storeIdempotency_todos key resp w :
  todos (Server.storeIdempotency key resp w) = todos w.
Proof.
  unfold Server.storeIdempotency, StoreIdempotencyKey, send.
  destruct (decide _); [| reflexivity].
  destruct (Pb.Marshal resp); [| reflexivity]. cbn.
  destruct (faults w) as [| [] fl]; cbn; try reflexivity;
    destruct (idempotency_keys w !! key); reflexivity.
Qed.

Lemma StoreIdempotencyKey_failed key marshalled w e :
  fst (StoreIdempotencyKey key marshalled w) = Err e ->
  idempotency_keys (snd (StoreIdempotencyKey key marshalled w)) =
    idempotency_keys w /\
  todos (snd (StoreIdempotencyKey key marshalled w)) = todos w.
Proof.
  unfold StoreIdempotencyKey, send.
  destruct marshalled; [| cbn; auto]. cbn.
  destruct (faults w) as [| [] fl]; cbn; auto;
    destruct (idempotency_keys w !! key); cbn; auto; discriminate.
Qed.

End Healthy.

Ltac run_mutation :=
  unfold Server.mutation, Store.CreateTodo, Store.CompleteTodo,
    Store.DeleteTodo, Store.EditTodo, Store.GetTodo, Store.update_where,
    Store.send, Store.time_Now, Store.set_todos, Store.set_todos_id_seq.

Section Mutations.
Import Store.

Lemma mutation_effects r w :
  idempotency_keys (snd (Server.mutation r w)) = idempotency_keys w /\
  (faults w = [] -> faults (snd (Server.mutation r w)) = []) /\
  exists stmt rest,
    Server.is_mutation stmt = true /\
    journal (snd (Server.mutation r w)) = journal w ++ stmt :: rest.
Proof.
  run_mutation.
  destruct r as [req | req | req | req];
    try destruct (CompleteTodoRequest.CompletedAt req);
    split_faults w; cbn;
    repeat (case_match; simplify_eq/=);
    (split; [reflexivity |]); (split; [try reflexivity; try discriminate |]);
    rewrite <- ?app_assoc; cbn; eexists _, _; (split; [| reflexivity]);
    reflexivity.
Qed.



End Mutations.

Section Settled.
Import Store.

Lemma CompleteTodo_settled w id c t :
  todos w !! id = Some t -> Status t <> "active"%string ->
  answers 2 w = true ->
  let out := CompleteTodo id (UserID t) c w in
  fst out = Ok t /\ todos (snd out) = todos w /\
  journal (snd out) = journal w ++ [UpdateComplete id (UserID t); SelectTodo id].
Proof.
  intros Ht Hst. run_store.
  split_faults w; cbn in Ht |- *; try discriminate; intros _;
    rewrite Ht; cbn; rewrite (bool_decide_eq_false_2 _ Hst), andb_false_r;
    cbn; rewrite Ht; cbn;
    (destruct (decide (UserID t <> UserID t)); [congruence |]); cbn;
    rewrite <- ?app_assoc; auto.
Qed.

Lemma DeleteTodo_settled w id t :
  todos w !! id = Some t -> Status t = "deleted"%string ->
  answers 2 w = true ->
  let out := DeleteTodo id (UserID t) w in
  fst out = Ok t /\ todos (snd out) = todos w /\
  journal (snd out) = journal w ++ [UpdateDelete id (UserID t); SelectTodo id].
Proof.
  intros Ht Hst. run_store.
  split_faults w; cbn in Ht |- *; try discriminate; intros _;
    rewrite Ht; cbn; rewrite (bool_decide_eq_true_2 _ Hst), andb_false_r;
    cbn; rewrite Ht; cbn;
    (destruct (decide (UserID t <> UserID t)); [congruence |]); cbn;
    rewrite <- ?app_assoc; auto.
Qed.

Lemma EditTodo_deleted w id title description t :
  todos w !! id = Some t -> Status t = "deleted"%string ->
  answers 2 w = true ->
  let out := EditTodo id (UserID t) title description w in
  fst out = Err ErrNotFound /\ todos (snd out) = todos w /\
  journal (snd out) =
    journal w ++ [UpdateEdit id (UserID t) title description; SelectTodo id].
Proof.
  intros Ht Hst. run_store.
  split_faults w; cbn in Ht |- *; try discriminate; intros _;
    rewrite Ht; cbn; rewrite (bool_decide_eq_true_2 _ Hst), andb_false_r;
    cbn; rewrite Ht; cbn;
    (destruct (decide (UserID t <> UserID t)); [congruence |]); cbn;
    rewrite <- ?app_assoc; auto.
Qed.

End Settled.

(** C7.  [GenerateKey] is a function of the external event id alone: the key
    is the prefix [idem_] followed by the lower-case hexadecimal encoding of
    the first 16 of the 32 bytes of the SHA-256 digest of the id, so it has
    37 bytes, and two ids get the same key exactly when their digests agree
    on the first 16 bytes. *)
Theorem GenerateKey_is_truncated_digest (source : string) :
  let digest := SHA256.Sum256 (bytes_of_string source) in
  List.length digest = 32%nat /\
  List.length (firstn 16 digest) = 16%nat /\
  Idempotency.GenerateKey source =
    String.append "idem_" (Hex.EncodeToString (firstn 16 digest)) /\
  String.length (Idempotency.GenerateKey source) = 37%nat /\
  (forall other : string,
     Idempotency.GenerateKey source = Idempotency.GenerateKey other <->
     firstn 16 digest = firstn 16 (SHA256.Sum256 (bytes_of_string other))) /\
  Idempotency.GenerateKey "SM1" = "idem_e084a13cc812fc9d09d293dbd8ec4a52"%string.
Proof.
  intros digest.
  assert (Hlen : List.length digest = 32%nat) by apply Sum256_length.
  assert (H16 : List.length (firstn 16 digest) = 16%nat).
  { rewrite length_firstn, Hlen. reflexivity. }
  split; [exact Hlen |]. split; [exact H16 |]. split; [reflexivity |].
  split.
  { unfold Idempotency.GenerateKey. fold digest.
    rewrite string_length_append, EncodeToString_length, H16. reflexivity. }
  split.
  - intros other. unfold Idempotency.GenerateKey. fold digest. split.
    + intros E. apply string_append_cancel in E.
      apply EncodeToString_inj; [ | | exact E ];
        apply Forall_take; apply Sum256_bytes.
    + intros ->. reflexivity.
  - vm_compute. reflexivity.
Qed.

(** C2.  A mutation aimed at a todo that exists but belongs to another user
    is answered with permission-denied and never with not-found.  For each
    of [CompleteTodo], [DeleteTodo] and [EditTodo] of the store: the result
    is never [ErrNotFound], whatever the driver does, the table is left as
    it was, and the result is [ErrNotOwner] as soon as the database answers
    the two statements of the call.  For the gRPC handlers on top: no
    request for that todo is ever answered with the code [NotFound], and a
    valid request without a recorded key is answered with
    [PermissionDenied]. *)
Theorem foreign_todo_is_permission_denied
    {codec : Pb.JSONCodec} (w : Store.World) (id : Z) (userID : string)
    (t : Store.Todo) :
  Store.todos w !! id = Some t ->
  Store.UserID t <> userID ->
  let verdict (out : result Store.error Store.Todo * Store.World) :=
    fst out <> Err Store.ErrNotFound /\
    Store.todos (snd out) = Store.todos w /\
    (Store.answers 2 w = true -> fst out = Err Store.ErrNotOwner) in
  (forall completedAt, verdict (Store.CompleteTodo id userID completedAt w)) /\
  verdict (Store.DeleteTodo id userID w) /\
  (forall title description,
     verdict (Store.EditTodo id userID title description w)) /\
  (forall r, Server.target r = Some id -> Server.caller r = userID ->
     (forall st, fst (Server.serve r w) = Err st ->
                 Server.code st <> Server.NotFound) /\
     (Server.valid r = true -> Server.unrecorded (Server.key_of r) w ->
      Store.answers 3 w = true ->
      fst (Server.serve r w) =
        Err (Server.mkStatus Server.PermissionDenied "you do not own this todo"))).
Proof.
  intros Ht Hne verdict. subst verdict. cbv beta.
  split; [intros c; apply (CompleteTodo_foreign w id userID c t Ht Hne) |].
  split; [apply (DeleteTodo_foreign w id userID t Ht Hne) |].
  split; [intros ti d; apply (EditTodo_foreign w id userID ti d t Ht Hne) |].
  intros r Htarget Hcaller. subst userID. split.
  - intros st. eapply serve_foreign_never_not_found; eassumption.
  - intros Hvalid Hkey Hanswers.
    destruct (checkIdempotency_unrecorded _ w 2 Hkey Hanswers)
      as (w1 & Hcheck & Htd & _ & _ & Hw1).
    destruct r as [req | req | req | req]; cbn in Htarget, Hne, Hvalid, Hcheck |- *;
      [discriminate Htarget | | |]; injection Htarget as Hid; subst id;
      apply andb_true_iff in Hvalid as [Hv1 Hv2];
      apply negb_true_iff, bool_decide_eq_false in Hv1, Hv2.
    + unfold Server.CompleteTodo.
      destruct (decide _); [tauto |]. destruct (decide _); [tauto |].
      rewrite Hcheck.
      destruct (CompleteTodoRequest.CompletedAt req) as [c |]; cbn.
      * destruct (CompleteTodo_foreign w1 _ _ c t
                    ltac:(rewrite Htd; exact Ht) Hne) as (_ & _ & Hres).
        specialize (Hres Hw1).
        destruct (Store.CompleteTodo _ _ c w1) as [res w2]; cbn in Hres.
        subst res. reflexivity.
      * destruct (CompleteTodo_foreign (snd (Store.time_Now w1)) _ _
                    (Store.clock w1) t ltac:(cbn; rewrite Htd; exact Ht) Hne)
          as (_ & _ & Hres).
        specialize (Hres Hw1). cbn in Hres.
        destruct (Store.CompleteTodo _ _ _ _) as [res w2]; cbn in Hres.
        subst res. reflexivity.
    + unfold Server.DeleteTodo.
      destruct (decide _); [tauto |]. destruct (decide _); [tauto |].
      rewrite Hcheck.
      destruct (DeleteTodo_foreign w1 _ _ t
                  ltac:(rewrite Htd; exact Ht) Hne) as (_ & _ & Hres).
      specialize (Hres Hw1).
      destruct (Store.DeleteTodo _ _ w1) as [res w2]; cbn in Hres.
      subst res. reflexivity.
    + unfold Server.EditTodo.
      destruct (decide _); [tauto |]. destruct (decide _); [tauto |].
      rewrite Hcheck.
      destruct (EditTodo_foreign w1 _ _ (EditTodoRequest.Title req)
                  (EditTodoRequest.Description req) t
                  ltac:(rewrite Htd; exact Ht) Hne) as (_ & _ & Hres).
      specialize (Hres Hw1).
      destruct (Store.EditTodo _ _ _ _ w1) as [res w2]; cbn in Hres.
      subst res. reflexivity.
Qed.

(** Bob asks to delete, complete and edit alice's todo 1. *)
Lemma foreign_todo_is_permission_denied_witness :
  fst (Store.DeleteTodo 1 "bob" Sample.world) = Err Store.ErrNotOwner /\
  fst (Server.serve (codec := Pb.object_codec)
         (Server.Edit (EditTodoRequest.mk 1 "bob" "mine" "now" "idem_k"))
         Sample.world) =
    Err (Server.mkStatus Server.PermissionDenied "you do not own this todo").
Proof.
  destruct (foreign_todo_is_permission_denied (codec := Pb.object_codec)
              Sample.world 1 "bob" (Sample.alice_todo 1 "active"))
    as (_ & Hdelete & _ & Hserve).
  - reflexivity.
  - discriminate.
  - split.
    + apply Hdelete. reflexivity.
    + apply Hserve; [reflexivity | reflexivity | reflexivity | | reflexivity].
      right. reflexivity.
Defined.

Section Fresh.
Import Store.
Context {codec : Pb.JSONCodec}.

(** A valid request whose key is not on record goes through to the
    mutation, after at most one statement. *)
Lemma serve_unrecorded r w n :
  Server.valid r = true -> Server.unrecorded (Server.key_of r) w ->
  answers (S n) w = true ->
  exists w1,
    todos w1 = todos w /\ idempotency_keys w1 = idempotency_keys w /\
    todos_id_seq w1 = todos_id_seq w /\ answers n w1 = true /\
    Server.serve r w =
      match Server.mutation r w1 with
      | (Err e, w2) => (Err (Server.failure r e), w2)
      | (Ok todo, w2) =>
          (Ok (Pb.mkResponse (Some (Server.storeToProto todo))),
           Server.storeIdempotency (Server.key_of r)
             (Pb.mkResponse (Some (Server.storeToProto todo))) w2)
      end.
Proof.
  intros Hvalid Hkey Hanswers.
  destruct (checkIdempotency_unrecorded _ w n Hkey Hanswers)
    as (w1 & Hcheck & Htd & Hik & Hsq & Hw1).
  exists w1. repeat (split; [assumption |]).
  rewrite serve_stages. unfold Server.staged. rewrite Hvalid, Hcheck. reflexivity.
Qed.

End Fresh.

(** C3.  For a todo of the caller that is already completed or deleted,
    [CompleteTodo] sends its conditional update, which changes no row, reads
    the row back and returns it as a success: the result is the stored todo,
    without error, and the table is as before.  [DeleteTodo] does the same
    for a todo that is already deleted.  The gRPC handlers return that todo
    in a successful response. *)
Theorem settled_todo_is_noop_success
    {codec : Pb.JSONCodec} (w : Store.World) (id : Z) (t : Store.Todo) :
  Store.todos w !! id = Some t ->
  let userID := Store.UserID t in
  let noop (out : result Store.error Store.Todo * Store.World) (update : Store.Stmt) :=
    fst out = Ok t /\
    Store.todos (snd out) = Store.todos w /\
    Store.journal (snd out) = Store.journal w ++ [update; Store.SelectTodo id] in
  (Store.Status t = "completed"%string \/ Store.Status t = "deleted"%string ->
   Store.answers 2 w = true ->
   forall completedAt,
     noop (Store.CompleteTodo id userID completedAt w)
          (Store.UpdateComplete id userID)) /\
  (Store.Status t = "deleted"%string ->
   Store.answers 2 w = true ->
   noop (Store.DeleteTodo id userID w) (Store.UpdateDelete id userID)) /\
  (forall r,
     Server.target r = Some id -> Server.caller r = userID ->
     match r with
     | Server.Complete _ =>
         Store.Status t = "completed"%string \/ Store.Status t = "deleted"%string
     | Server.Delete _ => Store.Status t = "deleted"%string
     | _ => False
     end ->
     Server.valid r = true -> Server.unrecorded (Server.key_of r) w ->
     Store.answers 3 w = true ->
     fst (Server.serve r w) =
       Ok (Pb.mkResponse (Some (Server.storeToProto t))) /\
     Store.todos (snd (Server.serve r w)) = Store.todos w).
Proof.
  intros Ht userID noop. subst userID noop. cbv beta.
  assert (Hactive : Store.Status t = "completed"%string \/
                    Store.Status t = "deleted"%string ->
                    Store.Status t <> "active"%string).
  { intros [E | E]; rewrite E; discriminate. }
  split; [| split].
  - intros Hst Hanswers c. apply CompleteTodo_settled; auto.
  - intros Hst Hanswers. apply DeleteTodo_settled; auto.
  - intros r Htarget Hcaller Hst Hvalid Hkey Hanswers.
    destruct (serve_unrecorded r w 2 Hvalid Hkey Hanswers)
      as (w1 & Htd & _ & _ & Hw1 & ->).
    destruct r as [req | req | req | req]; try contradiction;
      cbn in Htarget, Hcaller |- *; injection Htarget as Hid;
      rewrite Hid, Hcaller.
    + destruct (CompleteTodoRequest.CompletedAt req) as [c |]; cbn.
      * destruct (CompleteTodo_settled w1 id c t) as (Hres & Htd2 & _);
          [rewrite Htd; exact Ht | auto | exact Hw1 |].
        destruct (Store.CompleteTodo id _ c w1) as [res w2]; cbn in Hres, Htd2.
        subst res. cbn. rewrite storeIdempotency_todos. split; congruence.
      * destruct (CompleteTodo_settled (snd (Store.time_Now w1)) id
                    (Store.clock w1) t) as (Hres & Htd2 & _);
          [cbn; rewrite Htd; exact Ht | auto | exact Hw1 |].
        cbn in Hres, Htd2.
        destruct (Store.CompleteTodo id _ _ _) as [res w2]; cbn in Hres, Htd2.
        subst res. cbn. rewrite storeIdempotency_todos. split; congruence.
    + destruct (DeleteTodo_settled w1 id t) as (Hres & Htd2 & _);
        [rewrite Htd; exact Ht | auto | exact Hw1 |].
      destruct (Store.DeleteTodo id _ w1) as [res w2]; cbn in Hres, Htd2.
      subst res. cbn. rewrite storeIdempotency_todos. split; congruence.
Qed.

(** Alice completes her completed todo 2 again and deletes her deleted
    todo 3 again. *)
Lemma settled_todo_is_noop_success_witness :
  fst (Store.CompleteTodo 2 "alice" 2000 Sample.world) =
    Ok (Sample.alice_todo 2 "completed") /\
  Store.todos (snd (Store.DeleteTodo 3 "alice" Sample.world)) =
    Store.todos Sample.world.
Proof.
  split.
  - destruct (settled_todo_is_noop_success (codec := Pb.object_codec)
                Sample.world 2 (Sample.alice_todo 2 "completed"))
      as (Hcomplete & _); [reflexivity |].
    apply Hcomplete; [left; reflexivity | reflexivity].
  - destruct (settled_todo_is_noop_success (codec := Pb.object_codec)
                Sample.world 3 (Sample.alice_todo 3 "deleted"))
      as (_ & Hdelete & _); [reflexivity |].
    apply Hdelete; reflexivity.
Defined.

(** C8.  [EditTodo] has no such relaxation: for a todo of the caller that is
    deleted, the update changes no row and the result is [ErrNotFound],
    which the gRPC handler turns into the code [NotFound]; on the same todo
    [DeleteTodo] and [CompleteTodo] answer with a success. *)
Theorem edit_of_deleted_todo_is_not_found
    {codec : Pb.JSONCodec} (w : Store.World) (id : Z) (t : Store.Todo) :
  Store.todos w !! id = Some t ->
  Store.Status t = "deleted"%string ->
  Store.answers 2 w = true ->
  let userID := Store.UserID t in
  (forall title description,
     fst (Store.EditTodo id userID title description w) = Err Store.ErrNotFound /\
     Store.todos (snd (Store.EditTodo id userID title description w)) =
       Store.todos w) /\
  (forall req,
     EditTodoRequest.TodoId req = id -> EditTodoRequest.UserId req = userID ->
     Server.valid (Server.Edit req) = true ->
     Server.unrecorded (EditTodoRequest.IdempotencyKey req) w ->
     Store.answers 3 w = true ->
     fst (Server.serve (Server.Edit req) w) =
       Err (Server.mkStatus Server.NotFound "todo not found")) /\
  fst (Store.DeleteTodo id userID w) = Ok t /\
  (forall completedAt, fst (Store.CompleteTodo id userID completedAt w) = Ok t).
Proof.
  intros Ht Hst Hanswers userID. subst userID.
  split; [| split; [| split]].
  - intros title description.
    destruct (EditTodo_deleted w id title description t Ht Hst Hanswers)
      as (Hres & Htd & _). auto.
  - intros req Hid Hcaller Hvalid Hkey Hanswers3.
    destruct (serve_unrecorded (Server.Edit req) w 2 Hvalid Hkey Hanswers3)
      as (w1 & Htd & _ & _ & Hw1 & ->).
    cbn. rewrite Hid, Hcaller.
    destruct (EditTodo_deleted w1 id (EditTodoRequest.Title req)
                (EditTodoRequest.Description req) t) as (Hres & _);
      [rewrite Htd; exact Ht | exact Hst | exact Hw1 |].
    destruct (Store.EditTodo id _ _ _ w1) as [res w2]; cbn in Hres.
    subst res. reflexivity.
  - apply DeleteTodo_settled; assumption.
  - intros c. apply CompleteTodo_settled; try assumption.
    rewrite Hst. discriminate.
Qed.

(** Alice edits her deleted todo 3. *)
Lemma edit_of_deleted_todo_is_not_found_witness :
  fst (Store.EditTodo 3 "alice" "buy oat milk" "1 litre" Sample.world) =
    Err Store.ErrNotFound /\
  fst (Server.serve (codec := Pb.object_codec)
         (Server.Edit (EditTodoRequest.mk 3 "alice" "buy oat milk" "1 litre" "idem_k"))
         Sample.world) =
    Err (Server.mkStatus Server.NotFound "todo not found").
Proof.
  destruct (edit_of_deleted_todo_is_not_found (codec := Pb.object_codec)
              Sample.world 3 (Sample.alice_todo 3 "deleted"))
    as (Hedit & Hserve & _); [reflexivity | reflexivity | reflexivity |].
  split.
  - apply Hedit.
  - apply Hserve; [reflexivity | reflexivity | reflexivity | | reflexivity].
    right. reflexivity.
Defined.

Section Replay.
Import Store.
Context {codec : Pb.JSONCodec}.






End Replay.





Section LostRecord.
Import Store.
Context {codec : Pb.JSONCodec}.

Lemma checkIdempotency_miss key w :
  key <> EmptyString -> idempotency_keys w !! key = None ->
  answers 1 w = true ->
  exists w1,
    Server.checkIdempotency key w = (Server.Proceed, w1) /\
    idempotency_keys w1 = idempotency_keys w /\
    journal w1 = journal w ++ [SelectIdempotencyKey key].
Proof.
  intros Hkey Hrec Hanswers.
  unfold Server.checkIdempotency, CheckIdempotencyKey, send, answers in *.
  destruct (decide (key <> EmptyString)); [| tauto].
  destruct (faults w) as [| [] fl]; cbn in *; try discriminate;
    rewrite Hrec; eexists; (split; [reflexivity |]); cbn; auto.
Qed.

Lemma storeIdempotency_journal key resp w :
  exists sent, journal (Server.storeIdempotency key resp w) = journal w ++ sent.
Proof.
  unfold Server.storeIdempotency, StoreIdempotencyKey, send.
  destruct (decide _); [| exists []; rewrite app_nil_r; reflexivity].
  destruct (Pb.Marshal resp); [| exists []; rewrite app_nil_r; reflexivity].
  cbn. destruct (faults w) as [| [] fl]; cbn;
    try destruct (idempotency_keys w !! key); cbn; eexists; reflexivity.
Qed.

(** Without a record for its key, a valid request makes the handler send
    the lookup and then the statement of its mutation. *)
Lemma serve_miss_runs_mutation r w :
  Server.valid r = true -> Server.key_of r <> EmptyString ->
  idempotency_keys w !! Server.key_of r = None -> answers 1 w = true ->
  exists stmt rest,
    Server.is_mutation stmt = true /\
    journal (snd (Server.serve r w)) =
      journal w ++ SelectIdempotencyKey (Server.key_of r) :: stmt :: rest.
Proof.
  intros Hvalid Hkey Hrec Hanswers.
  destruct (checkIdempotency_miss _ w Hkey Hrec Hanswers) as (w1 & Hcheck & _ & Hjr1).
  rewrite serve_stages. unfold Server.staged. rewrite Hvalid, Hcheck.
  destruct (mutation_effects r w1) as (_ & _ & stmt & rest & Hstmt & Hjr2).
  destruct (Server.mutation r w1) as [[todo | e] w2]; cbn in Hjr2 |- *.
  - destruct (storeIdempotency_journal (Server.key_of r)
                (Pb.mkResponse (Some (Server.storeToProto todo))) w2)
      as (sent & ->).
    exists stmt, (rest ++ sent). split; [exact Hstmt |].
    rewrite Hjr2, Hjr1, <- !app_assoc. reflexivity.
  - exists stmt, rest. split; [exact Hstmt |].
    rewrite Hjr2, Hjr1, <- !app_assoc. reflexivity.
Qed.

End LostRecord.

(** C10.  When the mutation has succeeded and the write of the key record
    then fails (the marshalling or the insert returns an error), the handler
    still returns the successful response; no record exists for the key
    afterwards, so the next request with that key whose lookup is answered
    misses and sends the statement of the mutation again. *)
Theorem lost_key_record_reexecutes
    {codec : Pb.JSONCodec} (r : Server.Request) (w w2 : Store.World)
    (todo : Store.Todo) (e : Store.error) :
  let key := Server.key_of r in
  let resp := Pb.mkResponse (Some (Server.storeToProto todo)) in
  Server.valid r = true -> key <> EmptyString ->
  Store.idempotency_keys w !! key = None ->
  Store.answers 1 w = true ->
  Server.mutation r (snd (Server.checkIdempotency key w)) = (Ok todo, w2) ->
  fst (Store.StoreIdempotencyKey key (Pb.Marshal resp) w2) = Err e ->
  let after := snd (Server.serve r w) in
  fst (Server.serve r w) = Ok resp /\
  Store.idempotency_keys after !! key = None /\
  Store.todos after = Store.todos w2 /\
  (forall later,
     Store.idempotency_keys later !! key = None ->
     Store.answers 1 later = true ->
     exists stmt rest,
       Server.is_mutation stmt = true /\
       Store.journal (snd (Server.serve r later)) =
         Store.journal later ++ Store.SelectIdempotencyKey key :: stmt :: rest).
Proof.
  intros key resp Hvalid Hkey Hrec Hanswers Hmut Hfail after.
  subst key resp after.
  destruct (checkIdempotency_miss _ w Hkey Hrec Hanswers) as (w1 & Hcheck & Hik1 & _).
  rewrite Hcheck in Hmut. cbn in Hmut.
  pose proof (mutation_effects r w1) as (Hik2 & _). rewrite Hmut in Hik2.
  cbn in Hik2.
  destruct (StoreIdempotencyKey_failed _ _ _ _ Hfail) as (Hik3 & Htd3).
  rewrite serve_stages. unfold Server.staged. rewrite Hvalid, Hcheck, Hmut.
  cbn [negb fst snd]. unfold Server.storeIdempotency.
  destruct (decide (Server.key_of r <> EmptyString)); [| tauto].
  split; [reflexivity |]. split; [| split; [exact Htd3 |]].
  - rewrite Hik3, Hik2, Hik1. exact Hrec.
  - intros later Hlater Hans. apply serve_miss_runs_mutation; assumption.
Qed.

(** Alice's request to create a todo reaches a database that answers the
    lookup and the insert and then fails on the write of the key record. *)
Lemma lost_key_record_reexecutes_witness :
  let r := Server.Create (CreateTodoRequest.mk "alice" "walk dog" "" "idem_k") in
  let first := Server.serve (codec := Pb.object_codec) r Sample.failing_world in
  (exists resp, fst first = Ok resp) /\
  Store.idempotency_keys (snd first) !! "idem_k"%string = None /\
  exists stmt rest,
    Server.is_mutation stmt = true /\
    Store.journal (snd (Server.serve (codec := Pb.object_codec) r (snd first))) =
      Store.journal (snd first) ++ Store.SelectIdempotencyKey "idem_k" :: stmt :: rest.
Proof.
  intros r first.
  pose (out := Server.mutation r
          (snd (Server.checkIdempotency (codec := Pb.object_codec)
                  (Server.key_of r) Sample.failing_world))).
  destruct (lost_key_record_reexecutes (codec := Pb.object_codec) r
              Sample.failing_world (snd out)
              (match fst out with
               | Ok todo => todo
               | Err _ => Sample.alice_todo 0 EmptyString
               end) Store.ErrDriver)
    as (Hok & Hnone & _ & Hagain);
    [ reflexivity | discriminate | reflexivity | reflexivity
    | vm_compute; reflexivity | vm_compute; reflexivity |].
  split; [eexists; exact Hok |]. split; [exact Hnone |].
  apply Hagain; [exact Hnone | reflexivity].
Defined.

(** Both dispatches of that request insert a todo: the table grows by
    two. *)
Example lost_key_record_duplicates_todo :
  let r := Server.Create (CreateTodoRequest.mk "alice" "walk dog" "" "idem_k") in
  let first := Server.serve (codec := Pb.object_codec) r Sample.failing_world in
  let second := Server.serve (codec := Pb.object_codec) r (snd first) in
  size (Store.todos Sample.failing_world) = 3%nat /\
  size (Store.todos (snd first)) = 4%nat /\
  size (Store.todos (snd second)) = 5%nat /\
  fst first <> fst second.
Proof. vm_compute. repeat split; try reflexivity. discriminate. Qed.

(** ** The consumer loop *)

Section ConsumerFacts.
Import Consumer.
Context {H : Type}.
Variable Unmarshal : string -> option TextMessage.
Variable handler : TextMessage -> H -> bool * H.

Lemma Start_unfold d rest (run : Run H) :
  Start Unmarshal handler (Deliver d :: rest) run =
  Start Unmarshal handler rest (snd (Start Unmarshal handler [Deliver d] run)).
Proof.
  cbn. destruct (Unmarshal (Body d)) as [msg |]; [| reflexivity].
  destruct (handler msg (handler_state run)) as [[] h]; reflexivity.
Qed.

Lemma Start_one_ack_each events (run : Run H) :
  map fst (acks (snd (Start Unmarshal handler events run))) =
  map fst (acks run) ++ map DeliveryTag (received events).
Proof.
  revert run. induction events as [| ev rest IH]; intros run.
  - cbn. rewrite app_nil_r. reflexivity.
  - destruct ev as [| | d]; cbn; try (rewrite app_nil_r; reflexivity).
    destruct (Unmarshal (Body d)) as [msg |].
    + destruct (handler msg (handler_state run)) as [[] h]; rewrite IH; cbn;
        rewrite map_app, <- app_assoc; reflexivity.
    + rewrite IH. cbn. rewrite map_app, <- app_assoc. reflexivity.
Qed.

End ConsumerFacts.

(** C6.  For every message delivered to the consumer exactly one
    acknowledgement call is made, and which one is decided as follows: a
    body that does not decode is rejected without requeue and the handler
    is not called; a body that decodes is handed to the handler once, and
    the message is rejected with requeue if the handler returns an error
    and acknowledged if it does not.  Over a whole run the acknowledged
    tags are the tags of the deliveries received, in order. *)
Theorem one_acknowledgement_per_delivery
    {H : Type} (Unmarshal : string -> option Consumer.TextMessage)
    (handler : Consumer.TextMessage -> H -> bool * H)
    (d : Consumer.Delivery) (run : Consumer.Run H) :
  let out := Consumer.Start Unmarshal handler [Consumer.Deliver d] run in
  let tag := Consumer.DeliveryTag d in
  fst out = None /\
  match Unmarshal (Consumer.Body d) with
  | None =>
      Consumer.acks (snd out) =
        Consumer.acks run ++ [(tag, Consumer.Nack false false)] /\
      Consumer.invocations (snd out) = Consumer.invocations run /\
      Consumer.handler_state (snd out) = Consumer.handler_state run
  | Some msg =>
      Consumer.acks (snd out) =
        Consumer.acks run ++
          [(tag, if fst (handler msg (Consumer.handler_state run))
                 then Consumer.Nack false true
                 else Consumer.Ack false)] /\
      Consumer.invocations (snd out) = Consumer.invocations run ++ [msg] /\
      Consumer.handler_state (snd out) =
        snd (handler msg (Consumer.handler_state run))
  end /\
  (forall events run',
     map fst (Consumer.acks (snd (Consumer.Start Unmarshal handler events run'))) =
       map fst (Consumer.acks run') ++
       map Consumer.DeliveryTag (Consumer.received events)) /\
  (forall rest,
     Consumer.Start Unmarshal handler (Consumer.Deliver d :: rest) run =
     Consumer.Start Unmarshal handler rest (snd out)).
Proof.
  intros out tag. subst out tag. split; [| split; [| split]].
  - cbn. destruct (Unmarshal (Consumer.Body d)) as [msg |]; [| reflexivity].
    destruct (handler msg (Consumer.handler_state run)) as [[] h]; reflexivity.
  - cbn. destruct (Unmarshal (Consumer.Body d)) as [msg |]; [| auto].
    destruct (handler msg (Consumer.handler_state run)) as [[] h]; cbn; auto.
  - apply Start_one_ack_each.
  - intros rest. apply Start_unfold.
Qed.

(** ** The webhook *)

Section WebhookFacts.
Import Handler.
Context {P : Type} {pub : Publisher P}.

Lemma HandleSMS_accepted h r p :
  accepted h r ->
  HandleSMS h r p =
    let from := FormValue r "From" in
    let body := FormValue r "Body" in
    let messageSid := FormValue r "MessageSid" in
    let idemKey := Idempotency.GenerateKey messageSid in
    if decide (has_media r) then
      match handleAudioMessage from (FormValue r "MediaUrl0") messageSid idemKey p with
      | (true, p) => (http_Error "Internal server error" StatusInternalServerError, p)
      | (false, p) => (twiml, p)
      end
    else if decide (body <> EmptyString) then
      match handleTextMessage from body messageSid idemKey p with
      | (true, p) => (http_Error "Internal server error" StatusInternalServerError, p)
      | (false, p) => (twiml, p)
      end
    else (http_Error "Empty message" StatusBadRequest, p).
Proof.
  intros (Hpost & Hform & Hfrom & Hsid & Hsig). unfold HandleSMS, has_media.
  destruct (decide (Method r <> "POST"%string)); [congruence |].
  rewrite Hform.
  destruct (decide (_ \/ _)) as [[? | ?] |]; [congruence | congruence |].
  replace (bool_decide (twilioAuthToken h <> EmptyString) &&
           negb (validateSignature h r)) with false.
  2:{ destruct Hsig as [-> | ->]; [reflexivity |]. apply eq_sym, andb_false_r. }
  cbv zeta. repeat case_decide; try tauto; reflexivity.
Qed.

(** An accepted event without media and with an empty body is rejected
    and nothing is published. *)
Lemma empty_body_is_rejected h r p :
  accepted h r -> ~ has_media r -> FormValue r "Body" = EmptyString ->
  HandleSMS h r p = (http_Error "Empty message" StatusBadRequest, p).
Proof.
  intros Hacc Hmedia Hbody. rewrite HandleSMS_accepted by assumption.
  cbv zeta. rewrite Hbody. repeat case_decide; try tauto; congruence.
Qed.

End WebhookFacts.

(** C5.  An accepted event that carries a media reference with a media
    count other than the empty string and [0], and a non-empty body as
    well, makes the handler call [PublishAudio] once, with an envelope
    built from the sender, the media reference, the message id and the
    generated key, and never [PublishText]: whatever the publisher is, its
    state after the request is its state after that one call.  With the
    recording publisher of the tests, one audio message is added and no
    text message. *)
Theorem media_event_publishes_one_audio_envelope
    {P : Type} {pub : Handler.Publisher P}
    (h : Handler.WebhookHandler) (r : Handler.Request) (p : P) :
  Handler.accepted h r -> Handler.has_media r ->
  Handler.FormValue r "Body" <> EmptyString ->
  let sid := Handler.FormValue r "MessageSid" in
  let msg := AudioMessage.mk (Handler.FormValue r "From")
               (Handler.FormValue r "MediaUrl0") sid
               (Idempotency.GenerateKey sid) in
  Handler.HandleSMS h r p =
    (if fst (Handler.PublishAudio msg p)
     then Handler.http_Error "Internal server error" Handler.StatusInternalServerError
     else Handler.twiml,
     snd (Handler.PublishAudio msg p)) /\
  (forall m : Handler.mockPublisher,
     Handler.audioErr m = false ->
     let out := Handler.HandleSMS h r m in
     Handler.StatusCode (fst out) = Handler.StatusOK /\
     Handler.audioMessages (snd out) = Handler.audioMessages m ++ [msg] /\
     Handler.textMessages (snd out) = Handler.textMessages m).
Proof.
  intros Hacc Hmedia Hbody sid msg. subst sid msg. split.
  - rewrite HandleSMS_accepted by assumption. cbv zeta.
    destruct (decide (Handler.has_media r)); [| tauto].
    unfold Handler.handleAudioMessage.
    destruct (Handler.PublishAudio _ p) as [[] p']; reflexivity.
  - intros m Herr. rewrite HandleSMS_accepted by assumption. cbv zeta.
    destruct (decide (Handler.has_media r)); [| tauto].
    unfold Handler.handleAudioMessage. cbn. rewrite Herr. cbn. auto.
Qed.

(** The MMS of the tests: media and the body [some text]. *)
Lemma media_event_publishes_one_audio_envelope_witness :
  let out := Handler.HandleSMS Sample.handler Sample.mms Sample.mock in
  List.length (Handler.audioMessages (snd out)) = 1%nat /\
  Handler.textMessages (snd out) = [].
Proof.
  intros out.
  destruct (media_event_publishes_one_audio_envelope (pub := Handler.mockPublisher_Publisher)
              Sample.handler Sample.mms Sample.mock) as (_ & Hmock).
  - repeat split; try reflexivity; try discriminate. left. reflexivity.
  - repeat split; discriminate.
  - discriminate.
  - destruct (Hmock Sample.mock eq_refl) as (_ & Haudio & Htext).
    subst out. rewrite Haudio, Htext. split; reflexivity.
Defined.

(** C4, at the input where the code departs from it.  The SMS of three
    spaces is accepted, carries no media, and its body trims to the empty
    string; the handler tests the body before it trims it, so it answers
    200 and publishes a text envelope whose command text is empty. *)
Theorem whitespace_body_is_published :
  let r := Sample.blank_sms in
  let out := Handler.HandleSMS Sample.handler r Sample.mock in
  Handler.accepted Sample.handler r /\
  ~ Handler.has_media r /\
  Strings.TrimSpace (Handler.FormValue r "Body") = EmptyString /\
  Handler.StatusCode (fst out) = Handler.StatusOK /\
  Handler.textMessages (snd out) =
    [TextMessage.mk "+15551234567" EmptyString "SM123"
       (Idempotency.GenerateKey "SM123")].
Proof.
  cbv zeta. split; [| split; [| split; [| split]]].
  - repeat split; try reflexivity; try discriminate. left. reflexivity.
  - intros (Hnum & _). apply Hnum. reflexivity.
  - reflexivity.
  - vm_compute. reflexivity.
  - vm_compute. reflexivity.
Qed.

(** ** The fallback resolution by title *)

(** C9, at the input where the code departs from it.  [toLower] ranges
    over the string, which visits the first byte of each code point only,
    so the second byte of a two-byte character is left zero in the copy:
    U+00E9 and U+00FC are both turned into the bytes [C3 00].  Alice's only
    active todo is titled U+00E9; asked for the hint U+00FC,
    [FindTodoByTitle] returns that todo, although the hint does not occur
    in the title, whatever the case of its letters. *)
Theorem accented_hint_matches_another_letter :
  let title := Sample.e_acute in
  let hint := Sample.u_umlaut in
  Domain.toLower title = String "195"%char (String zero EmptyString) /\
  Domain.toLower hint = String "195"%char (String zero EmptyString) /\
  ~ Domain.occurs_ignoring_case title hint /\
  fst (Domain.FindTodoByTitle "alice" hint Sample.accented_world) =
    Ok (Some (Pb.mkTodo 1 "alice" title EmptyString Pb.TODO_STATUS_ACTIVE 100 None)).
Proof.
  cbv zeta. split; [reflexivity |]. split; [reflexivity |]. split.
  - intros (pre & mid & post & Heq & Hsame).
    destruct mid as [| c1 [| c2 [| c3 mid]]]; cbn in Hsame; try tauto.
    destruct Hsame as (_ & Hsecond & _).
    assert (Hc2 : c2 = "169"%char).
    { destruct pre as [| p0 [| p1 [| p2 pre]]]; cbn in Heq;
        inversion Heq; reflexivity. }
    subst c2. destruct Hsecond as [E | [[Hb _] | [Hb _]]];
      [discriminate E | vm_compute in Hb; discriminate Hb
      | vm_compute in Hb; discriminate Hb].
  - vm_compute. reflexivity.
Qed.

(* ===================================================================== *)
(** * Part III: further properties of the code *)
(* ===================================================================== *)

(** ** Searching titles *)

Section TitleMatch.
Import Domain.

Local Notation "a +++ b" := (String.append a b) (at level 60, right associativity).

Lemma append_cons (x : ascii) (a b : string) :
  String x a +++ b = String x (a +++ b).
Proof. reflexivity. Qed.

Lemma append_nil (b : string) : EmptyString +++ b = b.
Proof. reflexivity. Qed.

Lemma string_append_assoc (a b c : string) : (a +++ b) +++ c = a +++ b +++ c.
Proof.
  induction a as [| x a IH]; rewrite ?append_nil, ?append_cons;
    [reflexivity | rewrite IH; reflexivity].
Qed.

Lemma string_append_nil_r (a : string) : a +++ EmptyString = a.
Proof.
  induction a as [| x a IH]; rewrite ?append_nil, ?append_cons;
    [reflexivity | rewrite IH; reflexivity].
Qed.

Lemma string_append_inj (a b c d : string) :
  String.length a = String.length c -> a +++ b = c +++ d -> a = c /\ b = d.
Proof.
  revert c. induction a as [| x a IH]; intros [| y c] Hlen E;
    rewrite ?append_nil, ?append_cons in E; cbn in Hlen;
    try discriminate; [auto |].
  injection E as -> E. injection Hlen as Hlen.
  destruct (IH c Hlen E) as (-> & ->). auto.
Qed.

(** A string splits at every position up to its length. *)
Lemma string_split (n : nat) (s : string) :
  (n <= String.length s)%nat ->
  exists a b, s = a +++ b /\ String.length a = n.
Proof.
  revert s. induction n as [| n IH]; intros s Hn.
  - exists EmptyString, s. auto.
  - destruct s as [| x s]; cbn in Hn; [lia |].
    destruct (IH s ltac:(lia)) as (a & b & -> & Hlen).
    exists (String x a), b. rewrite append_cons. cbn. auto.
Qed.

Lemma substring_prefix (a b : string) :
  String.substring 0 (String.length a) (a +++ b) = a.
Proof.
  induction a as [| x a IH]; rewrite ?append_nil, ?append_cons; cbn;
    [destruct b; reflexivity | rewrite IH; reflexivity].
Qed.

Lemma substring_skip (a b : string) (m : nat) :
  String.substring (String.length a) m (a +++ b) = String.substring 0 m b.
Proof.
  induction a as [| x a IH]; rewrite ?append_nil, ?append_cons; cbn;
    [reflexivity | exact IH].
Qed.

Lemma substring_middle (pre sub post : string) :
  String.substring (String.length pre) (String.length sub) (pre +++ sub +++ post) = sub.
Proof. rewrite substring_skip. apply substring_prefix. Qed.

(** [contains] finds exactly the substrings. *)
Lemma contains_loop_sound fuel i s sub :
  0 <= i -> contains_loop fuel i s sub = true ->
  exists j, i <= j <= GoString.len s - GoString.len sub /\
            GoString.slice s j (j + GoString.len sub) = sub.
Proof.
  revert i. induction fuel as [| fuel IH]; intros i Hi; cbn; [discriminate |].
  destruct (Z.leb_spec i (GoString.len s - GoString.len sub)); [| discriminate].
  destruct (String.eqb_spec (GoString.slice s i (i + GoString.len sub)) sub) as [E | _].
  - intros _. exists i. split; [lia | exact E].
  - intros Hrest. destruct (IH (i + 1) ltac:(lia) Hrest) as (j & Hj & E).
    exists j. split; [lia | exact E].
Qed.

Lemma contains_loop_complete fuel i j s sub :
  i <= j <= GoString.len s - GoString.len sub ->
  (Z.to_nat (j - i) < fuel)%nat ->
  GoString.slice s j (j + GoString.len sub) = sub ->
  contains_loop fuel i s sub = true.
Proof.
  revert i. induction fuel as [| fuel IH]; intros i Hj Hfuel E; [lia |].
  cbn. destruct (Z.leb_spec i (GoString.len s - GoString.len sub)); [| lia].
  destruct (String.eqb_spec (GoString.slice s i (i + GoString.len sub)) sub);
    [reflexivity |].
  assert (i <> j) by congruence.
  apply IH; [lia | lia | exact E].
Qed.

Lemma contains_spec s sub :
  contains s sub = true <-> exists pre post, s = pre +++ sub +++ post.
Proof.
  unfold contains. split.
  - intros Hloop.
    destruct (contains_loop_sound _ 0 s sub ltac:(lia) Hloop) as (j & Hj & E).
    unfold GoString.slice, GoString.len in *.
    replace (Z.to_nat (j + Z.of_nat (String.length sub) - j))
      with (String.length sub) in E by lia.
    destruct (string_split (Z.to_nat j) s ltac:(lia)) as (pre & rest & -> & Hpre).
    rewrite <- Hpre, substring_skip in E.
    destruct (string_split (String.length sub) rest) as (mid & post & -> & Hmid).
    { rewrite string_length_append in Hj. lia. }
    rewrite <- Hmid, substring_prefix in E. subst mid.
    exists pre, post. reflexivity.
  - intros (pre & post & ->).
    apply (contains_loop_complete _ 0 (Z.of_nat (String.length pre))).
    + unfold GoString.len. rewrite !string_length_append. lia.
    + rewrite !string_length_append. lia.
    + unfold GoString.slice, GoString.len.
      replace (Z.to_nat (Z.of_nat (String.length pre) +
                         Z.of_nat (String.length sub) -
                         Z.of_nat (String.length pre)))
        with (String.length sub) by lia.
      rewrite Nat2Z.id. apply substring_middle.
Qed.


Lemma byte_inj (c d : ascii) : GoString.byte c = GoString.byte d -> c = d.
Proof.
  unfold GoString.byte. intros E. apply N2Z.inj in E.
  rewrite <- (ascii_N_embedding c), <- (ascii_N_embedding d), E. reflexivity.
Qed.

Lemma byte_range (c : ascii) : 0 <= GoString.byte c < 256.
Proof.
  unfold GoString.byte. pose proof (N_ascii_bounded c). lia.
Qed.

Lemma byte_lower (c : ascii) :
  GoString.byte (lower c) =
  if GoString.between 65 90 c then GoString.byte c + 32 else GoString.byte c.
Proof.
  unfold lower. destruct (GoString.between 65 90 c) eqn:Hup; [| reflexivity].
  unfold GoString.between in Hup. apply andb_true_iff in Hup as [Hlo Hhi].
  apply Z.leb_le in Hlo, Hhi. unfold GoString.byte in *.
  rewrite N_ascii_embedding by lia. lia.
Qed.

Lemma between_spec lo hi c :
  GoString.between lo hi c = true <-> lo <= GoString.byte c <= hi.
Proof.
  unfold GoString.between. rewrite andb_true_iff, !Z.leb_le. tauto.
Qed.

(** Two bytes have the same lower-case form exactly when they are the same
    letter up to case. *)
Lemma lower_same_letter (c d : ascii) : lower c = lower d <-> same_letter c d.
Proof.
  unfold same_letter. split.
  - intros E. apply (f_equal GoString.byte) in E. rewrite !byte_lower in E.
    destruct (GoString.between 65 90 c) eqn:Hc, (GoString.between 65 90 d) eqn:Hd.
    + left. apply byte_inj. lia.
    + right. left. split; [reflexivity | lia].
    + right. right. split; [reflexivity | lia].
    + left. apply byte_inj. exact E.
  - intros [-> | [[Hc E] | [Hd E]]]; [reflexivity | |]; apply byte_inj;
      rewrite !byte_lower.
    + rewrite Hc. apply between_spec in Hc.
      destruct (GoString.between 65 90 d) eqn:Hd; [| lia].
      apply between_spec in Hd. lia.
    + rewrite Hd. apply between_spec in Hd.
      destruct (GoString.between 65 90 c) eqn:Hc; [| lia].
      apply between_spec in Hc. lia.
Qed.

Lemma toLower_from_length skip s :
  String.length (toLower_from skip s) = String.length s.
Proof.
  revert skip. induction s as [| c s IH]; intros skip; [reflexivity |].
  destruct skip; cbn; rewrite IH; reflexivity.
Qed.

Lemma toLower_cons c rest :
  GoString.byte c < 128 ->
  toLower (String c rest) = String (lower c) (toLower rest).
Proof.
  intros Hc. unfold toLower. cbn [toLower_from].
  replace (GoString.rune_width (String c rest)) with 1%nat; [reflexivity |].
  unfold GoString.rune_width, GoString.first.
  destruct (Z.ltb_spec (GoString.byte c) 0xC2); [reflexivity | lia].
Qed.

Lemma ascii_only_append a b :
  ascii_only (a +++ b) <-> ascii_only a /\ ascii_only b.
Proof.
  induction a as [| c a IH]; rewrite ?append_nil, ?append_cons; cbn;
    [tauto | rewrite IH; tauto].
Qed.

Lemma toLower_append a b :
  ascii_only a -> toLower (a +++ b) = toLower a +++ toLower b.
Proof.
  induction a as [| c a IH]; intros Ha; rewrite ?append_nil, ?append_cons;
    [reflexivity |].
  destruct Ha as [Hc Ha]. rewrite !toLower_cons by assumption.
  rewrite IH by assumption. reflexivity.
Qed.

Lemma toLower_same_text a b :
  ascii_only a -> ascii_only b -> (toLower a = toLower b <-> same_text a b).
Proof.
  revert b. induction a as [| c a IH]; intros [| d b] Ha Hb; cbn [same_text].
  - split; [tauto | reflexivity].
  - split; [| tauto]. intros E. apply (f_equal String.length) in E.
    unfold toLower in E. rewrite !toLower_from_length in E. discriminate E.
  - split; [| tauto]. intros E. apply (f_equal String.length) in E.
    unfold toLower in E. rewrite !toLower_from_length in E. discriminate E.
  - destruct Ha as [Hc Ha], Hb as [Hd Hb].
    rewrite !toLower_cons by assumption. rewrite <- IH, <- lower_same_letter by assumption.
    split; [intros E; injection E; auto | intros [-> ->]; reflexivity].
Qed.

Lemma toLower_length s : String.length (toLower s) = String.length s.
Proof. apply toLower_from_length. Qed.

Lemma containsIgnoreCase_ascii title hint :
  ascii_only title -> ascii_only hint ->
  (containsIgnoreCase title hint = true <-> occurs_ignoring_case title hint).
Proof.
  intros Htitle Hhint. unfold containsIgnoreCase, occurs_ignoring_case.
  rewrite contains_spec. split.
  - intros (pre' & post' & E).
    assert (Hlen : (String.length pre' + (String.length hint + String.length post')
                    = String.length title)%nat).
    { apply (f_equal String.length) in E.
      rewrite !string_length_append, !toLower_length in E. lia. }
    destruct (string_split (String.length pre') title ltac:(lia))
      as (pre & rest & -> & Hpre).
    apply ascii_only_append in Htitle as [Hpre_ascii Hrest_ascii].
    rewrite toLower_append in E by assumption.
    apply string_append_inj in E as [_ E]; [| rewrite toLower_length; exact Hpre].
    rewrite string_length_append in Hlen.
    destruct (string_split (String.length hint) rest ltac:(lia))
      as (mid & post & -> & Hmid).
    apply ascii_only_append in Hrest_ascii as [Hmid_ascii _].
    rewrite toLower_append in E by assumption.
    apply string_append_inj in E as [E _]; [| rewrite !toLower_length; exact Hmid].
    exists pre, mid, post. split; [reflexivity |].
    apply toLower_same_text; assumption.
  - intros (pre & mid & post & -> & Hsame).
    apply ascii_only_append in Htitle as [Hpre Hrest].
    apply ascii_only_append in Hrest as [Hmid _].
    exists (toLower pre), (toLower post).
    rewrite !toLower_append by assumption.
    apply toLower_same_text in Hsame; [| assumption | assumption].
    rewrite Hsame. reflexivity.
Qed.

End TitleMatch.

(** X1.  [contains] answers whether [substr] occurs in [s]: it returns
    true exactly when [s] is some prefix, then [substr], then some suffix.
    In particular the empty string occurs in every string, and a string
    longer than [s] never does (the loop bound is negative and the body
    does not run). *)
Theorem contains_finds_substrings (s substr : string) :
  (Domain.contains s substr = true <->
   exists pre post, s = String.append pre (String.append substr post)) /\
  Domain.contains s EmptyString = true /\
  ((String.length s < String.length substr)%nat ->
   Domain.contains s substr = false).
Proof.
  split; [apply contains_spec |]. split.
  - apply contains_spec. exists EmptyString, s. reflexivity.
  - intros Hlen. destruct (Domain.contains s substr) eqn:E; [| reflexivity].
    apply contains_spec in E as (pre & post & ->).
    rewrite !string_length_append in Hlen. lia.
Qed.

Lemma contains_finds_substrings_witness :
  Domain.contains "ab" "abc" = false.
Proof.
  apply (contains_finds_substrings "ab" "abc"). cbn. lia.
Defined.

(** X2.  On strings without multi-byte characters [containsIgnoreCase]
    does what its comment says: it returns true exactly when some
    substring of the title equals the hint up to the case of the ASCII
    letters. *)
Theorem containsIgnoreCase_on_ascii (title hint : string) :
  Domain.ascii_only title -> Domain.ascii_only hint ->
  (Domain.containsIgnoreCase title hint = true <->
   Domain.occurs_ignoring_case title hint).
Proof. apply containsIgnoreCase_ascii. Qed.

Lemma containsIgnoreCase_on_ascii_witness :
  Domain.occurs_ignoring_case "Buy MILK today" "milk".
Proof.
  apply (containsIgnoreCase_on_ascii "Buy MILK today" "milk").
  - cbn. repeat split; lia.
  - cbn. repeat split; lia.
  - reflexivity.
Defined.

(** X3.  [toLower] returns a string of the length of its argument, and on
    a string without multi-byte characters it changes the upper-case ASCII
    letters into their lower-case forms and nothing else. *)
Theorem toLower_keeps_length (s : string) :
  String.length (Domain.toLower s) = String.length s /\
  (Domain.ascii_only s ->
   forall i c, String.get i s = Some c ->
     String.get i (Domain.toLower s) = Some (Domain.lower c) /\
     (GoString.between 65 90 c = false -> Domain.lower c = c) /\
     (GoString.between 65 90 c = true ->
      GoString.byte (Domain.lower c) = GoString.byte c + 32)).
Proof.
  split; [apply toLower_length |].
  induction s as [| x s IH]; intros Ha i c Hget; [discriminate Hget |].
  destruct Ha as [Hx Ha]. rewrite toLower_cons by assumption.
  assert (Hlower : forall c, (GoString.between 65 90 c = false -> Domain.lower c = c) /\
     (GoString.between 65 90 c = true ->
      GoString.byte (Domain.lower c) = GoString.byte c + 32)).
  { intros c0. split; intros Hb.
    - unfold Domain.lower. rewrite Hb. reflexivity.
    - rewrite byte_lower, Hb. reflexivity. }
  destruct i as [| i]; cbn in Hget |- *.
  - injection Hget as ->. split; [reflexivity | apply Hlower].
  - split; [| apply Hlower]. apply (IH Ha i c Hget).
Qed.

Lemma toLower_keeps_length_witness :
  String.get 4 (Domain.toLower "Buy MILK") = Some (Domain.lower "M"%char).
Proof.
  apply (toLower_keeps_length "Buy MILK").
  - cbn. repeat split; lia.
  - reflexivity.
Defined.

(** ** Listing todos *)

Section Listing.
Import Store.

#[local] Instance created_desc_total : Total created_desc.
Proof. intros a b. unfold created_desc. lia. Qed.

#[local] Instance created_desc_trans : Transitive created_desc.
Proof. intros a b c. unfold created_desc. lia. Qed.

Lemma list_filter_spec userID status t :
  list_filter userID status t = true <->
  UserID t = userID /\
  (status <> EmptyString -> Status t = status) /\
  (status = EmptyString -> Status t <> "deleted"%string).
Proof.
  unfold list_filter. destruct (decide (status <> EmptyString)) as [Hs | Hs].
  - rewrite andb_true_iff, !bool_decide_eq_true. intuition congruence.
  - assert (status = EmptyString) by (destruct (decide (status = EmptyString)); tauto).
    rewrite andb_true_iff, negb_true_iff, bool_decide_eq_true, bool_decide_eq_false.
    intuition congruence.
Qed.

Lemma ListTodos_rows userID status w rows :
  fst (ListTodos userID status w) = Ok rows ->
  StronglySorted created_desc rows /\
  (forall t, t ∈ rows <->
     (exists id, todos w !! id = Some t) /\
     list_filter userID status t = true).
Proof.
  unfold ListTodos, send.
  destruct (faults w) as [| [] fl]; cbn; try discriminate;
    intros E; injection E as <-;
    (split; [apply StronglySorted_merge_sort; apply _ |]);
    intros t; rewrite merge_sort_Permutation, list_elem_of_In;
    rewrite filter_In, <- list_elem_of_In, list_elem_of_fmap;
    (split; [ intros [([id t'] & -> & Hin) Hf]; split; [| exact Hf];
              exists id; apply elem_of_map_to_list in Hin; exact Hin
            | intros [(id & Hid) Hf]; split; [| exact Hf];
              exists (id, t); split; [reflexivity |];
              apply elem_of_map_to_list; exact Hid ]).
Qed.

Lemma ListTodos_answered userID status w :
  answers 1 w = true -> exists rows, fst (ListTodos userID status w) = Ok rows.
Proof.
  unfold ListTodos, send, answers.
  destruct (faults w) as [| [] fl]; cbn; try discriminate; eauto.
Qed.

Lemma ListTodos_tables userID status w :
  todos (snd (ListTodos userID status w)) = todos w /\
  idempotency_keys (snd (ListTodos userID status w)) = idempotency_keys w /\
  journal (snd (ListTodos userID status w)) =
    journal w ++ [SelectTodos userID status].
Proof.
  unfold ListTodos, send. destruct (faults w) as [| [] fl]; cbn; auto.
Qed.

End Listing.

(** X4.  When the database answers the query, [ListTodos] of the store
    returns exactly the rows of the user that pass the status filter (the
    given status, or every status but [deleted] when the filter is empty),
    newest first, and leaves both tables as they were. *)
Theorem ListTodos_returns_the_users_rows
    (userID status : string) (w : Store.World) :
  Store.answers 1 w = true ->
  exists rows,
    fst (Store.ListTodos userID status w) = Ok rows /\
    StronglySorted (fun a b => Store.CreatedAt b <= Store.CreatedAt a) rows /\
    (forall t, t ∈ rows <->
       (exists id, Store.todos w !! id = Some t) /\
       Store.UserID t = userID /\
       (status <> EmptyString -> Store.Status t = status) /\
       (status = EmptyString -> Store.Status t <> "deleted"%string)) /\
    Store.todos (snd (Store.ListTodos userID status w)) = Store.todos w /\
    Store.idempotency_keys (snd (Store.ListTodos userID status w)) =
      Store.idempotency_keys w.
Proof.
  intros Hanswers.
  destruct (ListTodos_answered userID status w Hanswers) as (rows & Hrows).
  destruct (ListTodos_rows userID status w rows Hrows) as (Hsorted & Hmem).
  destruct (ListTodos_tables userID status w) as (Htd & Hik & _).
  exists rows. repeat (split; [assumption |]). split; [| auto].
  intros t. rewrite Hmem, list_filter_spec. reflexivity.
Qed.

(** Alice's rows that are not deleted: todo 1 and todo 2. *)
Lemma ListTodos_returns_the_users_rows_witness :
  exists rows,
    fst (Store.ListTodos "alice" EmptyString Sample.world) = Ok rows /\
    forall t, t ∈ rows -> Store.Status t <> "deleted"%string.
Proof.
  destruct (ListTodos_returns_the_users_rows "alice" EmptyString Sample.world)
    as (rows & Hrows & _ & Hmem & _); [reflexivity |].
  exists rows. split; [exact Hrows |].
  intros t Ht. apply Hmem in Ht. apply Ht. reflexivity.
Defined.

Section Finding.
Import Store.

Lemma first_match_spec hint (listed : list Pb.Todo) :
  match Domain.first_match hint listed with
  | Some t =>
      exists before after,
        listed = before ++ t :: after /\
        Domain.containsIgnoreCase (Pb.Title t) hint = true /\
        Forall (fun x => Domain.containsIgnoreCase (Pb.Title x) hint = false) before
  | None =>
      Forall (fun x => Domain.containsIgnoreCase (Pb.Title x) hint = false) listed
  end.
Proof.
  induction listed as [| x listed IH]; cbn [Domain.first_match]; [constructor |].
  destruct (Domain.containsIgnoreCase (Pb.Title x) hint) eqn:Hx.
  - exists [], listed. auto.
  - destruct (Domain.first_match hint listed) as [t |].
    + destruct IH as (before & after & -> & Ht & Hbefore).
      exists (x :: before), after. auto.
    + constructor; assumption.
Qed.

Lemma storeToProto_status row :
  Status row = "active"%string ->
  Pb.Status (Server.storeToProto row) = Pb.TODO_STATUS_ACTIVE.
Proof. intros E. cbn. rewrite E. reflexivity. Qed.

(** What the server lists for a user under the status ACTIVE. *)
Lemma Domain_ListTodos_active userID w listed w' :
  Domain.ListTodos userID (Domain.mkFilter Pb.TODO_STATUS_ACTIVE None None) w =
    (Ok listed, w') ->
  todos w' = todos w /\ idempotency_keys w' = idempotency_keys w /\
  forall t, t ∈ listed <->
    exists id row, todos w !! id = Some row /\ t = Server.storeToProto row /\
                   UserID row = userID /\ Status row = "active"%string.
Proof.
  unfold Domain.ListTodos, Server.ListTodos. cbn.
  destruct (decide (userID = EmptyString)); [discriminate |].
  pose proof (ListTodos_rows userID "active" w) as Hrows.
  destruct (ListTodos_tables userID "active" w) as (Htd & Hik & _).
  destruct (ListTodos userID "active" w) as [[rows | e] w1]; [| discriminate].
  cbn in *. intros E. injection E as <- <-.
  destruct (Hrows rows eq_refl) as (_ & Hmem).
  split; [exact Htd |]. split; [exact Hik |].
  intros t. rewrite list_elem_of_fmap. split.
  - intros (row & -> & Hin). apply Hmem in Hin as ((id & Hid) & Hf).
    apply list_filter_spec in Hf as (Hu & Hs & _).
    exists id, row. repeat split; auto.
  - intros (id & row & Hid & -> & Hu & Hs). exists row. split; [reflexivity |].
    apply Hmem. split; [eauto |]. apply list_filter_spec.
    repeat split; auto; try discriminate.
Qed.

End Finding.

(** X5.  [FindTodoByTitle] goes through the list the server returns for the
    caller's active todos front to back and returns the first one whose
    title [containsIgnoreCase] accepts: everything before the returned todo
    was rejected, and [None] means every listed todo was rejected. *)
Theorem FindTodoByTitle_returns_first_listed_match
    (userID hint : string) (w w' : Store.World) (listed : list Pb.Todo) :
  Domain.ListTodos userID (Domain.mkFilter Pb.TODO_STATUS_ACTIVE None None) w =
    (Ok listed, w') ->
  exists found,
    Domain.FindTodoByTitle userID hint w = (Ok found, w') /\
    match found with
    | Some t =>
        exists before after,
          listed = before ++ t :: after /\
          Domain.containsIgnoreCase (Pb.Title t) hint = true /\
          Forall (fun x => Domain.containsIgnoreCase (Pb.Title x) hint = false)
                 before
    | None =>
        Forall (fun x => Domain.containsIgnoreCase (Pb.Title x) hint = false)
               listed
    end.
Proof.
  intros Hlisted. exists (Domain.first_match hint listed). split.
  - unfold Domain.FindTodoByTitle. rewrite Hlisted. reflexivity.
  - apply first_match_spec.
Qed.

(** Alice asks for [MILK]; her active todo 1 is titled [buy milk]. *)
Lemma FindTodoByTitle_returns_first_listed_match_witness :
  exists found w',
    Domain.FindTodoByTitle "alice" "MILK" Sample.world = (Ok found, w') /\
    found <> None.
Proof.
  pose (out := Domain.ListTodos "alice"
                 (Domain.mkFilter Pb.TODO_STATUS_ACTIVE None None) Sample.world).
  destruct (FindTodoByTitle_returns_first_listed_match "alice" "MILK"
              Sample.world (snd out)
              (match fst out with Ok listed => listed | Err _ => [] end))
    as (found & Hfound & Hspec).
  - vm_compute. reflexivity.
  - exists found, (snd out). split; [exact Hfound |].
    intros ->. vm_compute in Hspec. inversion Hspec as [| ? ? Hno _].
    discriminate Hno.
Defined.

(** X6.  [FindTodoByTitle] only reads: both tables are as before.  Without
    a user id it fails with [InvalidArgument] and sends nothing.  A todo it
    returns is a row of the table that belongs to the caller and is
    active, and its title passes [containsIgnoreCase]; when it returns
    [None], no active row of the caller has such a title. *)
Theorem FindTodoByTitle_considers_own_active_todos
    (userID hint : string) (w : Store.World) :
  let out := Domain.FindTodoByTitle userID hint w in
  Store.todos (snd out) = Store.todos w /\
  Store.idempotency_keys (snd out) = Store.idempotency_keys w /\
  (userID = EmptyString ->
   out = (Err (Server.mkStatus Server.InvalidArgument "user_id is required"), w)) /\
  (forall t, fst out = Ok (Some t) ->
     Pb.UserId t = userID /\ Pb.Status t = Pb.TODO_STATUS_ACTIVE /\
     Domain.containsIgnoreCase (Pb.Title t) hint = true /\
     exists id row, Store.todos w !! id = Some row /\ t = Server.storeToProto row) /\
  (fst out = Ok None ->
   forall id row, Store.todos w !! id = Some row ->
     Store.UserID row = userID -> Store.Status row = "active"%string ->
     Domain.containsIgnoreCase (Store.Title row) hint = false).
Proof.
  intros out. subst out. unfold Domain.FindTodoByTitle.
  destruct (Domain.ListTodos userID _ w) as [[listed | e] w'] eqn:Hlisted.
  - destruct (Domain_ListTodos_active userID w listed w' Hlisted) as (Htd & Hik & Hmem).
    cbn [fst snd]. split; [exact Htd |]. split; [exact Hik |]. split.
    { intros ->. unfold Domain.ListTodos, Server.ListTodos in Hlisted.
      cbn in Hlisted. discriminate Hlisted. }
    pose proof (first_match_spec hint listed) as Hfirst. split.
    + intros t E. injection E as E. rewrite E in Hfirst.
      destruct Hfirst as (before & after & Hl & Ht & _).
      assert (Hin : t ∈ listed).
      { apply list_elem_of_In. rewrite Hl. apply in_elt. }
      pose proof (proj1 (Hmem t) Hin) as (id & row & Hid & Et & Hu & Hs).
      subst t.
      repeat split; [exact Hu | apply storeToProto_status; exact Hs | exact Ht |].
      eauto.
    + intros E id row Hid Hu Hs. injection E as E. rewrite E in Hfirst.
      rewrite Forall_forall in Hfirst.
      apply (Hfirst (Server.storeToProto row)).
      apply Hmem. eauto 8.
  - cbn [fst snd].
    unfold Domain.ListTodos, Server.ListTodos in Hlisted. cbn in Hlisted.
    destruct (decide (userID = EmptyString)).
    + injection Hlisted as <- <-.
      repeat split; try reflexivity; discriminate.
    + destruct (ListTodos_tables userID "active" w) as (Htd & Hik & _).
      destruct (Store.ListTodos userID "active" w) as [[rows | e'] w1];
        [discriminate |].
      injection Hlisted as <- <-. cbn in Htd, Hik.
      repeat split; try assumption; try discriminate. tauto.
Qed.

(** ** What the mutations keep *)

Section Keeping.
Import Store.

Lemma mutation_rows r w id row :
  todos w !! id = Some row ->
  exists row',
    todos (snd (Server.mutation r w)) !! id = Some row' /\
    ID row' = ID row /\ UserID row' = UserID row /\
    CreatedAt row' = CreatedAt row /\
    (UserID row <> Server.caller r -> row' = row) /\
    (Server.target r <> Some id -> row' = row) /\
    (Status row = "deleted"%string -> row' = row) /\
    (Status row = "completed"%string ->
     (Status row' = "completed"%string \/ Status row' = "deleted"%string) /\
     CompletedAt row' = CompletedAt row).
Proof.
  intros Hrow. run_mutation.
  destruct r as [req | req | req | req];
    try destruct (CompleteTodoRequest.CompletedAt req);
    split_faults w; cbn in Hrow |- *;
    repeat (case_match; simplify_eq/=);
    match goal with
    | |- context [<[?k := _]> _ !! id] =>
        destruct (decide (k = id)) as [Hk | Hk];
        [ rewrite Hk in *; rewrite lookup_insert_eq
        | rewrite lookup_insert_ne by exact Hk ]
    | _ => idtac
    end;
    simplify_eq/=;
    try (eexists; split; [eassumption || reflexivity |]; cbn;
         repeat match goal with
                | H : _ && _ = true |- _ => apply andb_true_iff in H as [? ?]
                | H : bool_decide _ = true |- _ => apply bool_decide_eq_true in H
                | H : negb _ = true |- _ => apply negb_true_iff in H
                | H : bool_decide _ = false |- _ => apply bool_decide_eq_false in H
                end;
         repeat split; try reflexivity; try congruence; try tauto;
         intros; try congruence; try (split; [tauto | reflexivity])).
Qed.


Lemma mutation_new_rows r w id row' :
  todos w !! id = None ->
  todos (snd (Server.mutation r w)) !! id = Some row' ->
  exists req,
    r = Server.Create req /\ id = todos_id_seq w /\ ID row' = id /\
    UserID row' = CreateTodoRequest.UserId req /\
    Title row' = CreateTodoRequest.Title req /\
    Description row' = CreateTodoRequest.Description req /\
    Status row' = "active"%string /\
    CompletedAt row' = None /\ DeletedAt row' = None.
Proof.
  intros Hnone. run_mutation.
  destruct r as [req | req | req | req];
    try destruct (CompleteTodoRequest.CompletedAt req);
    split_faults w; cbn in Hnone |- *;
    repeat (case_match; simplify_eq/=);
    intros Hrow;
    repeat match goal with
           | H : <[?k := _]> _ !! id = Some _ |- _ =>
               destruct (decide (k = id)) as [Hk | Hk];
               [ rewrite Hk in *; rewrite lookup_insert_eq in H
               | rewrite lookup_insert_ne in H by exact Hk ]
           end;
    simplify_eq/=;
    eexists; repeat split; reflexivity.
Qed.

Section WithCodec.
Context {codec : Pb.JSONCodec}.

Lemma storeIdempotency_keeps key resp w k rec :
  idempotency_keys w !! k = Some rec ->
  idempotency_keys (Server.storeIdempotency key resp w) !! k = Some rec.
Proof.
  intros Hrec. unfold Server.storeIdempotency, StoreIdempotencyKey, send.
  destruct (decide _); [| exact Hrec].
  destruct (Pb.Marshal resp); [| exact Hrec]. cbn.
  destruct (faults w) as [| [] fl]; cbn; try exact Hrec;
    (destruct (idempotency_keys w !! key) eqn:Hkey; cbn; [exact Hrec |];
     rewrite lookup_insert_ne; [exact Hrec | congruence]).
Qed.

Lemma storeIdempotency_adds key resp w k rec' :
  idempotency_keys w !! k = None ->
  idempotency_keys (Server.storeIdempotency key resp w) !! k = Some rec' ->
  k = key /\ key <> EmptyString /\ Pb.Marshal resp = Some (response rec').
Proof.
  intros Hnone. unfold Server.storeIdempotency, StoreIdempotencyKey, send.
  destruct (decide _) as [Hkey |]; [| congruence].
  destruct (Pb.Marshal resp) as [doc |]; [| cbn; congruence]. cbn.
  destruct (faults w) as [| [] fl]; cbn; try congruence;
    (destruct (idempotency_keys w !! key) eqn:Hrec; cbn; [congruence |];
     destruct (decide (key = k)) as [<- | Hne];
     [ rewrite lookup_insert_eq; intros E; injection E as <-; auto
     | rewrite lookup_insert_ne by exact Hne; congruence ]).
Qed.

(** The stages of a handler through which the tables pass. *)
Lemma serve_cases r w :
  Server.serve r w = (Err (Server.rejection r), w) \/
  (exists w1 out,
     todos w1 = todos w /\ idempotency_keys w1 = idempotency_keys w /\
     todos_id_seq w1 = todos_id_seq w /\ Server.valid r = true /\
     ((Server.serve r w = (out, w1) /\
       (out = Err (Server.mkStatus Server.Internal "internal error") \/
        exists resp rec, out = Ok resp /\
          idempotency_keys w !! Server.key_of r = Some rec /\
          Pb.Unmarshal (response rec) = Some resp)) \/
      (exists e w2, Server.mutation r w1 = (Err e, w2) /\
         Server.serve r w = (Err (Server.failure r e), w2)) \/
      (exists todo w2, Server.mutation r w1 = (Ok todo, w2) /\
         Server.serve r w =
           (Ok (Pb.mkResponse (Some (Server.storeToProto todo))),
            Server.storeIdempotency (Server.key_of r)
              (Pb.mkResponse (Some (Server.storeToProto todo))) w2)))).
Proof.
  rewrite serve_stages. unfold Server.staged.
  destruct (Server.valid r) eqn:Hvalid; cbn [negb]; [right | left; reflexivity].
  destruct (checkIdempotency_tables (Server.key_of r) w) as (Htd & Hik & Hsq).
  destruct (Server.checkIdempotency (Server.key_of r) w) as [[| resp |] w1] eqn:Hcheck;
    cbn [fst snd] in Htd, Hik, Hsq.
  - exists w1, (Err (Server.mkStatus Server.Internal "internal error")).
    repeat (split; [assumption || reflexivity |]). left. split; [reflexivity |].
    left. reflexivity.
  - exists w1, (Ok resp). repeat (split; [assumption || reflexivity |]).
    left. split; [reflexivity |]. right.
    unfold Server.checkIdempotency, CheckIdempotencyKey, send in Hcheck.
    destruct (decide _); [| discriminate].
    destruct (faults w) as [| [] fl]; cbn in Hcheck; try discriminate;
      (destruct (idempotency_keys w !! Server.key_of r) as [rec |]; [| discriminate];
       cbn in Hcheck;
       destruct (Pb.Unmarshal (response rec)) eqn:Hun; [| discriminate];
       injection Hcheck as <- _; eauto).
  - destruct (Server.mutation r w1) as [[todo | e] w2] eqn:Hmut.
    + exists w1, (Ok (Pb.mkResponse (Some (Server.storeToProto todo)))).
      repeat (split; [assumption || reflexivity |]). right. right. eauto.
    + exists w1, (Err (Server.failure r e)).
      repeat (split; [assumption || reflexivity |]). right. left. eauto.
Qed.

End WithCodec.

End Keeping.

Section KeepingServer.
Import Store.
Context {codec : Pb.JSONCodec}.

(** Whatever a handler returns, the todos it leaves are the todos one
    store mutation leaves, or the todos it found. *)
Lemma serve_todos r w :
  todos (snd (Server.serve r w)) = todos w \/
  exists w1, todos w1 = todos w /\ todos_id_seq w1 = todos_id_seq w /\
             Server.valid r = true /\
             todos (snd (Server.serve r w)) = todos (snd (Server.mutation r w1)).
Proof.
  destruct (serve_cases r w) as [-> | (w1 & out & Htd & _ & Hsq & Hvalid & Hcase)];
    [left; reflexivity |].
  destruct Hcase as [[-> _] | [(e & w2 & Hmut & ->) | (todo & w2 & Hmut & ->)]].
  - left. exact Htd.
  - right. exists w1. rewrite Hmut. auto.
  - right. exists w1. rewrite Hmut. cbn. rewrite storeIdempotency_todos. auto.
Qed.

End KeepingServer.

(** X7.  No request removes a todo or touches a todo it is not aimed at:
    after any of the four handlers, with any outcome of the database calls,
    every row that existed still exists with the same id, owner and
    creation time, and it is unchanged altogether unless the request
    targets it and comes from its owner. *)
Theorem requests_leave_other_todos_alone
    {codec : Pb.JSONCodec} (r : Server.Request) (w : Store.World)
    (id : Z) (row : Store.Todo) :
  Store.todos w !! id = Some row ->
  exists row',
    Store.todos (snd (Server.serve r w)) !! id = Some row' /\
    Store.ID row' = Store.ID row /\
    Store.UserID row' = Store.UserID row /\
    Store.CreatedAt row' = Store.CreatedAt row /\
    (Store.UserID row <> Server.caller r -> row' = row) /\
    (Server.target r <> Some id -> row' = row).
Proof.
  intros Hrow.
  destruct (serve_todos r w) as [-> | (w1 & Htd & _ & _ & ->)].
  - exists row. repeat split; auto.
  - destruct (mutation_rows r w1 id row ltac:(rewrite Htd; exact Hrow))
      as (row' & H1 & H2 & H3 & H4 & H5 & H6 & _).
    exists row'. repeat split; assumption.
Qed.

(** Bob asks to delete alice's todo 1, and the database answers. *)
Lemma requests_leave_other_todos_alone_witness :
  Store.todos
    (snd (Server.serve (codec := Pb.object_codec)
            (Server.Delete (DeleteTodoRequest.mk 1 "bob" "idem_b"))
            Sample.world)) !! 1 =
  Some (Sample.alice_todo 1 "active").
Proof.
  destruct (requests_leave_other_todos_alone (codec := Pb.object_codec)
              (Server.Delete (DeleteTodoRequest.mk 1 "bob" "idem_b"))
              Sample.world 1 (Sample.alice_todo 1 "active") eq_refl)
    as (row' & Hrow' & _ & _ & _ & Hother & _).
  rewrite Hrow'. f_equal. apply Hother. discriminate.
Defined.

(** X8.  The status of a todo only moves forward.  After any of the four
    handlers, with any outcome of the database calls, a deleted todo is
    exactly as it was, and a completed todo is completed or deleted and
    has kept its completion time. *)
Theorem todo_status_only_moves_forward
    {codec : Pb.JSONCodec} (r : Server.Request) (w : Store.World)
    (id : Z) (row : Store.Todo) :
  Store.todos w !! id = Some row ->
  (Store.Status row = "deleted"%string ->
   Store.todos (snd (Server.serve r w)) !! id = Some row) /\
  (Store.Status row = "completed"%string ->
   exists row',
     Store.todos (snd (Server.serve r w)) !! id = Some row' /\
     (Store.Status row' = "completed"%string \/
      Store.Status row' = "deleted"%string) /\
     Store.CompletedAt row' = Store.CompletedAt row).
Proof.
  intros Hrow.
  destruct (serve_todos r w) as [-> | (w1 & Htd & _ & _ & ->)].
  - split; [auto |]. intros Hst. exists row. rewrite Hst. auto.
  - destruct (mutation_rows r w1 id row ltac:(rewrite Htd; exact Hrow))
      as (row' & H1 & _ & _ & _ & _ & _ & Hdel & Hcomp).
    split.
    + intros Hst. rewrite H1, (Hdel Hst). reflexivity.
    + intros Hst. exists row'. split; [exact H1 |]. apply Hcomp. exact Hst.
Qed.

(** Alice asks to complete her deleted todo 3 and to edit her completed
    todo 2. *)
Lemma todo_status_only_moves_forward_witness :
  Store.todos
    (snd (Server.serve (codec := Pb.object_codec)
            (Server.Complete (CompleteTodoRequest.mk 3 "alice" "idem_c" None))
            Sample.world)) !! 3 =
  Some (Sample.alice_todo 3 "deleted").
Proof.
  apply (todo_status_only_moves_forward (codec := Pb.object_codec)
           (Server.Complete (CompleteTodoRequest.mk 3 "alice" "idem_c" None))
           Sample.world 3 (Sample.alice_todo 3 "deleted") eq_refl).
  reflexivity.
Defined.

(** X9.  Only [CreateTodo] adds a row, and only a valid request does: a
    row that appears after a handler was inserted for a request with a
    user id and a title, under the next value of the id sequence, and it
    is an active todo of the caller with the title and description of the
    request. *)
Theorem only_create_adds_a_todo
    {codec : Pb.JSONCodec} (r : Server.Request) (w : Store.World)
    (id : Z) (row' : Store.Todo) :
  Store.todos w !! id = None ->
  Store.todos (snd (Server.serve r w)) !! id = Some row' ->
  exists req,
    r = Server.Create req /\
    CreateTodoRequest.UserId req <> EmptyString /\
    CreateTodoRequest.Title req <> EmptyString /\
    id = Store.todos_id_seq w /\ Store.ID row' = id /\
    Store.UserID row' = CreateTodoRequest.UserId req /\
    Store.Title row' = CreateTodoRequest.Title req /\
    Store.Description row' = CreateTodoRequest.Description req /\
    Store.Status row' = "active"%string.
Proof.
  intros Hnone Hrow'.
  destruct (serve_todos r w) as [E | (w1 & Htd & Hsq & Hvalid & E)];
    rewrite E in Hrow'; [congruence |].
  destruct (mutation_new_rows r w1 id row' ltac:(rewrite Htd; exact Hnone) Hrow')
    as (req & -> & Hid & H1 & H2 & H3 & H4 & H5 & _).
  exists req. cbn in Hvalid. apply andb_true_iff in Hvalid as [Hu Ht].
  apply negb_true_iff, bool_decide_eq_false in Hu, Ht.
  rewrite Hsq in Hid. repeat split; assumption.
Qed.

(** Alice creates a todo in the sample database, whose next id is 4. *)
Lemma only_create_adds_a_todo_witness :
  exists req,
    Server.Create (CreateTodoRequest.mk "alice" "walk dog" "" "idem_w") =
      Server.Create req /\
    CreateTodoRequest.Title req <> EmptyString.
Proof.
  pose (r := Server.Create (CreateTodoRequest.mk "alice" "walk dog" "" "idem_w")).
  pose (after := snd (Server.serve (codec := Pb.object_codec) r Sample.world)).
  destruct (only_create_adds_a_todo (codec := Pb.object_codec) r Sample.world 4
              (match Store.todos after !! 4 with
               | Some row => row
               | None => Sample.alice_todo 0 EmptyString
               end))
    as (req & Hr & _ & Htitle & _).
  - reflexivity.
  - vm_compute. reflexivity.
  - exists req. split; [exact Hr | exact Htitle].
Defined.

(** X10.  The table of idempotency keys only grows, and only by what was
    answered: after any handler every record that existed is unchanged,
    and a record that appears is the record of the request's own key and
    holds the marshalled form of the successful response the handler
    returned. *)
Theorem key_records_are_append_only
    {codec : Pb.JSONCodec} (r : Server.Request) (w : Store.World) :
  let after := snd (Server.serve r w) in
  (forall k rec,
     Store.idempotency_keys w !! k = Some rec ->
     Store.idempotency_keys after !! k = Some rec) /\
  (forall k rec',
     Store.idempotency_keys w !! k = None ->
     Store.idempotency_keys after !! k = Some rec' ->
     k = Server.key_of r /\ k <> EmptyString /\
     exists resp,
       fst (Server.serve r w) = Ok resp /\
       Pb.Marshal resp = Some (Store.response rec')).
Proof.
  cbv zeta.
  destruct (serve_cases r w) as [-> | (w1 & out & _ & Hik & _ & _ & Hcase)].
  { split; [auto |]. cbn. congruence. }
  destruct Hcase as [[-> _] | [(e & w2 & Hmut & ->) | (todo & w2 & Hmut & ->)]];
    cbn [fst snd].
  - rewrite Hik. split; [auto | congruence].
  - pose proof (mutation_effects r w1) as (Hik2 & _). rewrite Hmut in Hik2.
    cbn in Hik2. rewrite Hik2, Hik. split; [auto | congruence].
  - pose proof (mutation_effects r w1) as (Hik2 & _). rewrite Hmut in Hik2.
    cbn in Hik2. split.
    + intros k rec Hrec. apply storeIdempotency_keeps. rewrite Hik2, Hik. exact Hrec.
    + intros k rec' Hnone Hrec'.
      destruct (storeIdempotency_adds _ _ w2 k rec'
                  ltac:(rewrite Hik2, Hik; exact Hnone) Hrec') as (-> & Hkey & Hdoc).
      repeat split; try assumption. eexists. split; [reflexivity | exact Hdoc].
Qed.

(** ** What the store operations do when they succeed *)

Section Effects.
Import Store.

Ltac run_all :=
  unfold CreateTodo, CompleteTodo, DeleteTodo, EditTodo, GetTodo, update_where,
    send, time_Now, answers, set_todos, set_todos_id_seq.

Lemma CreateTodo_effect userID title description w :
  answers 1 w = true -> todos w !! todos_id_seq w = None ->
  let id := todos_id_seq w in
  let todo := mkTodo id userID title description "active" (clock w) (clock w + 1)
                     None None in
  fst (CreateTodo userID title description w) = Ok todo /\
  todos (snd (CreateTodo userID title description w)) = <[id := todo]> (todos w) /\
  todos_id_seq (snd (CreateTodo userID title description w)) = id + 1 /\
  (answers 2 w = true ->
   fst (GetTodo id (snd (CreateTodo userID title description w))) = Ok todo).
Proof.
  intros Hanswers Hfree. run_all.
  split_faults w; cbn in *; try discriminate; rewrite Hfree; cbn;
    repeat split; try reflexivity; intros Hsecond; try discriminate Hsecond.
  all: cbn; rewrite lookup_insert_eq; reflexivity.
Qed.

Lemma CompleteTodo_effect id completedAt w row :
  todos w !! id = Some row -> Status row = "active"%string ->
  answers 2 w = true ->
  let row' := set_completed completedAt (clock w) row in
  fst (CompleteTodo id (UserID row) completedAt w) = Ok row' /\
  todos (snd (CompleteTodo id (UserID row) completedAt w)) = <[id := row']> (todos w).
Proof.
  intros Hrow Hst. run_all.
  split_faults w; cbn in Hrow |- *; try discriminate; intros _;
    rewrite Hrow; cbn; rewrite Hst; rewrite !bool_decide_eq_true_2 by reflexivity;
    cbn; rewrite lookup_insert_eq; auto.
Qed.

Lemma DeleteTodo_effect id w row :
  todos w !! id = Some row -> Status row <> "deleted"%string ->
  answers 2 w = true ->
  let row' := set_deleted (clock w) row in
  fst (DeleteTodo id (UserID row) w) = Ok row' /\
  todos (snd (DeleteTodo id (UserID row) w)) = <[id := row']> (todos w).
Proof.
  intros Hrow Hst. run_all.
  split_faults w; cbn in Hrow |- *; try discriminate; intros _;
    rewrite Hrow; cbn; rewrite (bool_decide_eq_false_2 _ Hst);
    rewrite bool_decide_eq_true_2 by reflexivity;
    cbn; rewrite lookup_insert_eq; auto.
Qed.

Lemma EditTodo_effect id title description w row :
  todos w !! id = Some row -> Status row <> "deleted"%string ->
  answers 2 w = true ->
  let row' := set_edited title description (clock w) row in
  fst (EditTodo id (UserID row) title description w) = Ok row' /\
  todos (snd (EditTodo id (UserID row) title description w)) =
    <[id := row']> (todos w).
Proof.
  intros Hrow Hst. run_all.
  split_faults w; cbn in Hrow |- *; try discriminate; intros _;
    rewrite Hrow; cbn; rewrite (bool_decide_eq_false_2 _ Hst);
    rewrite bool_decide_eq_true_2 by reflexivity;
    cbn; rewrite lookup_insert_eq; auto.
Qed.

End Effects.

(** X11.  A created todo can be read back.  When the database answers and
    the next id of the sequence is free, [CreateTodo] of the store returns
    an active todo of the given user under that id, without completion or
    deletion time; it inserts exactly that row and no other row changes;
    and [GetTodo] with the returned id gives the same todo. *)
Theorem created_todo_can_be_read_back
    (userID title description : string) (w : Store.World) :
  Store.answers 2 w = true ->
  Store.todos w !! Store.todos_id_seq w = None ->
  let out := Store.CreateTodo userID title description w in
  exists todo,
    fst out = Ok todo /\
    Store.ID todo = Store.todos_id_seq w /\
    Store.UserID todo = userID /\ Store.Title todo = title /\
    Store.Description todo = description /\
    Store.Status todo = "active"%string /\
    Store.CompletedAt todo = None /\ Store.DeletedAt todo = None /\
    fst (Store.GetTodo (Store.ID todo) (snd out)) = Ok todo /\
    (forall id, id <> Store.ID todo ->
       Store.todos (snd out) !! id = Store.todos w !! id).
Proof.
  intros Hanswers Hfree out. subst out.
  destruct (CreateTodo_effect userID title description w
              (answers_S 1 w Hanswers) Hfree) as (Hres & Htd & _ & Hget).
  eexists. split; [exact Hres |]. cbn.
  repeat split; try reflexivity.
  - apply Hget. exact Hanswers.
  - intros id Hid. rewrite Htd. apply lookup_insert_ne. congruence.
Qed.

Lemma created_todo_can_be_read_back_witness :
  exists todo,
    fst (Store.CreateTodo "alice" "walk dog" "" Sample.world) = Ok todo /\
    Store.ID todo = 4.
Proof.
  destruct (created_todo_can_be_read_back "alice" "walk dog" "" Sample.world)
    as (todo & Hres & Hid & _); [reflexivity | reflexivity |].
  exists todo. split; [exact Hres | exact Hid].
Defined.

(** X12.  Completing and deleting, when they apply.  For an active todo of
    the caller, [CompleteTodo] stores and returns the todo with status
    [completed], the given completion time and the time of the call as
    update time.  For a todo of the caller that is not deleted (active or
    completed), [DeleteTodo] stores and returns it with status [deleted]
    and the time of the call as deletion and update time; a completion
    time stays.  Title, description, owner, id and creation time are kept
    by both. *)
Theorem complete_and_delete_update_the_row
    (id : Z) (w : Store.World) (row : Store.Todo) :
  Store.todos w !! id = Some row ->
  Store.answers 2 w = true ->
  let userID := Store.UserID row in
  (Store.Status row = "active"%string ->
   forall completedAt,
     let row' := Store.mkTodo (Store.ID row) userID (Store.Title row)
                   (Store.Description row) "completed" (Store.CreatedAt row)
                   (Store.clock w) (Some completedAt) (Store.DeletedAt row) in
     fst (Store.CompleteTodo id userID completedAt w) = Ok row' /\
     Store.todos (snd (Store.CompleteTodo id userID completedAt w)) =
       <[id := row']> (Store.todos w)) /\
  (Store.Status row <> "deleted"%string ->
   let row' := Store.mkTodo (Store.ID row) userID (Store.Title row)
                 (Store.Description row) "deleted" (Store.CreatedAt row)
                 (Store.clock w) (Store.CompletedAt row) (Some (Store.clock w)) in
   fst (Store.DeleteTodo id userID w) = Ok row' /\
   Store.todos (snd (Store.DeleteTodo id userID w)) = <[id := row']> (Store.todos w)).
Proof.
  intros Hrow Hanswers userID. subst userID. split.
  - intros Hst c. apply (CompleteTodo_effect id c w row Hrow Hst Hanswers).
  - intros Hst. apply (DeleteTodo_effect id w row Hrow Hst Hanswers).
Qed.

(** Alice deletes her completed todo 2. *)
Lemma complete_and_delete_update_the_row_witness :
  exists row',
    fst (Store.DeleteTodo 2 "alice" Sample.world) = Ok row' /\
    Store.Status row' = "deleted"%string.
Proof.
  destruct (complete_and_delete_update_the_row 2 Sample.world
              (Sample.alice_todo 2 "completed") eq_refl eq_refl) as (_ & Hdelete).
  destruct (Hdelete ltac:(discriminate)) as (Hres & _).
  eexists. split; [exact Hres | reflexivity].
Defined.

(** X13.  [EditTodo] replaces title and description of a todo of the
    caller that is not deleted, whatever they are: a completed todo can be
    edited and stays completed, and an empty title is stored as it is.
    Status, completion time, owner, id and creation time are kept. *)
Theorem edit_replaces_title_and_description
    (id : Z) (title description : string) (w : Store.World) (row : Store.Todo) :
  Store.todos w !! id = Some row ->
  Store.Status row <> "deleted"%string ->
  Store.answers 2 w = true ->
  let userID := Store.UserID row in
  let row' := Store.mkTodo (Store.ID row) userID title description
                (Store.Status row) (Store.CreatedAt row) (Store.clock w)
                (Store.CompletedAt row) (Store.DeletedAt row) in
  fst (Store.EditTodo id userID title description w) = Ok row' /\
  Store.todos (snd (Store.EditTodo id userID title description w)) =
    <[id := row']> (Store.todos w).
Proof.
  intros Hrow Hst Hanswers userID row'. subst userID row'.
  apply (EditTodo_effect id title description w row Hrow Hst Hanswers).
Qed.

(** Alice blanks the title of her completed todo 2. *)
Lemma edit_replaces_title_and_description_witness :
  exists row',
    fst (Store.EditTodo 2 "alice" EmptyString "2 litres" Sample.world) = Ok row' /\
    Store.Title row' = EmptyString /\ Store.Status row' = "completed"%string.
Proof.
  destruct (edit_replaces_title_and_description 2 EmptyString "2 litres"
              Sample.world (Sample.alice_todo 2 "completed") eq_refl
              ltac:(discriminate) eq_refl) as (Hres & _).
  eexists. split; [exact Hres |]. split; reflexivity.
Defined.
